(** * polyserver: the market server's reconciliation with the on-chain list

    A shallow embedding of [server.js]: the content fingerprint
    [getLow128BitsOfSHA256], the reconciliation [update], and the endpoints
    [/api/next-market-id], [/api/save-bet], [/api/save-market],
    [/api/user-bets], [/api/market] and [/api/markets], over a model of the
    SQLite tables [Markets] and [Bets].  *)

From stdpp Require Import base tactics option list strings gmap.
From Stdlib Require Import ZArith Lia.

Local Open Scope Z_scope.

(** ** JavaScript values *)

Module Js.

(** A JavaScript string is a sequence of UTF-16 code units. *)
Definition jsstring := list Z.

(** An ASCII literal as a JavaScript string. *)
Definition lit (s : string) : jsstring :=
  (λ c, Z.of_N (Ascii.N_of_ascii c)) <$> String.list_ascii_of_string s.

(** Numbers: the integer-valued doubles and NaN.  Arithmetic on them is
    exact while the values stay within the safe range
    [|z| <= 2^53 - 1]; the statements that go through [Number]
    arithmetic carry that range. *)
Inductive number := NaN | Num (z : Z).

Inductive value :=
| Undefined
| Null
| Bool (b : bool)
| Number (n : number)
| BigInt (z : Z)
| Str (s : jsstring).

#[export] Instance number_eq_dec : EqDecision number.
Proof. solve_decision. Defined.
#[export] Instance value_eq_dec : EqDecision value.
Proof. solve_decision. Defined.

(** ToBoolean, as used by [!x] and [x ? a : b]. *)
Definition truthy (v : value) : bool :=
  match v with
  | Undefined | Null => false
  | Bool b => b
  | Number NaN => false
  | Number (Num z) => negb (z =? 0)
  | BigInt z => negb (z =? 0)
  | Str s => negb (bool_decide (s = []))
  end.

(** *** Decimal numerals *)

Definition digit_char (d : Z) : Z := 48 + d.

Fixpoint digits_fuel (fuel : nat) (n : Z) : jsstring :=
  match fuel with
  | O => [digit_char n]
  | S fuel' =>
      if n <? 10 then [digit_char n]
      else digits_fuel fuel' (n / 10) ++ [digit_char (n mod 10)]
  end.

(** The decimal numeral of a natural number, no leading zero. *)
Definition digits (n : Z) : jsstring := digits_fuel (Z.to_nat (Z.log2 n)) n.

(** [z.toString()] for a BigInt, and for a Number in the safe range. *)
Definition decimal (z : Z) : jsstring :=
  if z <? 0 then 45 :: digits (- z) else digits z.

Definition number_toString (n : number) : jsstring :=
  match n with
  | NaN => lit "NaN"
  | Num z => decimal z
  end.

(** [n + 1] on numbers. *)
Definition number_succ (n : number) : number :=
  match n with
  | NaN => NaN
  | Num z => Num (z + 1)
  end.

(** *** Scanning an integer prefix *)

Definition is_digit (c : Z) : bool := (48 <=? c) && (c <=? 57).

(** Horner evaluation of the leading run of decimal digits; [None] when
    the run is empty. *)
Fixpoint scan_digits (acc : option Z) (s : jsstring) : option Z :=
  match s with
  | c :: t =>
      if is_digit c then scan_digits (Some (default 0 acc * 10 + (c - 48))) t
      else acc
  | [] => acc
  end.

Fixpoint drop_while (p : Z → bool) (s : jsstring) : jsstring :=
  match s with
  | c :: t => if p c then drop_while p t else s
  | [] => []
  end.

(** Optional sign, then digits. *)
Definition scan_signed (s : jsstring) : option Z :=
  match s with
  | 45 :: t => Z.opp <$> scan_digits None t
  | 43 :: t => scan_digits None t
  | _ => scan_digits None s
  end.

(** WhiteSpace and LineTerminator code units skipped by [parseInt]. *)
Definition is_js_space (c : Z) : bool :=
  bool_decide (c ∈ [9; 10; 11; 12; 13; 32; 160; 5760; 8232; 8233; 8239;
                    8287; 12288; 65279])
  || ((8192 <=? c) && (c <=? 8202)).

(** [parseInt(s, 10)] on a string. *)
Definition parseInt10 (s : jsstring) : number :=
  match scan_signed (drop_while is_js_space s) with
  | Some z => Num z
  | None => NaN
  end.

(** *** [TextEncoder.encode] *)

Definition is_high (u : Z) : bool := (0xD800 <=? u) && (u <=? 0xDBFF).
Definition is_low (u : Z) : bool := (0xDC00 <=? u) && (u <=? 0xDFFF).

(** Code units to scalar values; a lone surrogate becomes U+FFFD. *)
Fixpoint scalar_values (s : jsstring) : list Z :=
  match s with
  | [] => []
  | u :: t =>
      if is_high u then
        match t with
        | v :: t' =>
            if is_low v
            then (0x10000 + (u - 0xD800) * 0x400 + (v - 0xDC00)) :: scalar_values t'
            else 0xFFFD :: scalar_values t
        | [] => [0xFFFD]
        end
      else if is_low u then 0xFFFD :: scalar_values t
      else u :: scalar_values t
  end.

Definition utf8_of_scalar (c : Z) : list Z :=
  if c <? 0x80 then [c]
  else if c <? 0x800 then
    [Z.lor 0xC0 (Z.shiftr c 6); Z.lor 0x80 (Z.land c 0x3F)]
  else if c <? 0x10000 then
    [Z.lor 0xE0 (Z.shiftr c 12);
     Z.lor 0x80 (Z.land (Z.shiftr c 6) 0x3F);
     Z.lor 0x80 (Z.land c 0x3F)]
  else
    [Z.lor 0xF0 (Z.shiftr c 18);
     Z.lor 0x80 (Z.land (Z.shiftr c 12) 0x3F);
     Z.lor 0x80 (Z.land (Z.shiftr c 6) 0x3F);
     Z.lor 0x80 (Z.land c 0x3F)].

Definition TextEncoder_encode (s : jsstring) : list Z :=
  scalar_values s ≫= utf8_of_scalar.

End Js.

(** ** SHA-256 ([crypto.subtle.digest("SHA-256", data)]) *)

Module Sha256.

Definition w32 (x : Z) : Z := x mod 2 ^ 32.
Definition add32 (a b : Z) : Z := w32 (a + b).
Definition rotr (n x : Z) : Z :=
  Z.lor (Z.shiftr x n) (w32 (Z.shiftl x (32 - n))).
Definition shr (n x : Z) : Z := Z.shiftr x n.
Definition not32 (x : Z) : Z := Z.lxor x 0xFFFFFFFF.

Definition Ch (x y z : Z) : Z := Z.lxor (Z.land x y) (Z.land (not32 x) z).
Definition Maj (x y z : Z) : Z :=
  Z.lxor (Z.lxor (Z.land x y) (Z.land x z)) (Z.land y z).
Definition bsig0 (x : Z) : Z := Z.lxor (Z.lxor (rotr 2 x) (rotr 13 x)) (rotr 22 x).
Definition bsig1 (x : Z) : Z := Z.lxor (Z.lxor (rotr 6 x) (rotr 11 x)) (rotr 25 x).
Definition ssig0 (x : Z) : Z := Z.lxor (Z.lxor (rotr 7 x) (rotr 18 x)) (shr 3 x).
Definition ssig1 (x : Z) : Z := Z.lxor (Z.lxor (rotr 17 x) (rotr 19 x)) (shr 10 x).

(** The first sixty-four primes. *)
Definition primes : list Z :=
  [2; 3; 5; 7; 11; 13; 17; 19; 23; 29; 31; 37; 41; 43; 47; 53; 59; 61; 67; 71;
   73; 79; 83; 89; 97; 101; 103; 107; 109; 113; 127; 131; 137; 139; 149; 151;
   157; 163; 167; 173; 179; 181; 191; 193; 197; 199; 211; 223; 227; 229; 233;
   239; 241; 251; 257; 263; 269; 271; 277; 281; 283; 293; 307; 311].

(** The integer cube root, found bit by bit from bit [n - 1] down. *)
Fixpoint cbrt_bits (n : nat) (x r : Z) : Z :=
  match n with
  | O => r
  | S n' =>
      let r' := r + 2 ^ Z.of_nat n' in
      if r' * r' * r' <=? x then cbrt_bits n' x r' else cbrt_bits n' x r
  end.

(** The round constants: the first 32 bits of the fractional part of the
    cube root of each prime. *)
Definition K : list Z :=
  (λ p, w32 (cbrt_bits 36 (p * 2 ^ 96) 0)) <$> primes.

Record state := State { ha : Z; hb : Z; hc : Z; hd : Z;
                        he : Z; hf : Z; hg : Z; hh : Z }.

(** The initial hash value: the first 32 bits of the fractional part of the
    square root of each of the first eight primes. *)
Definition frac_sqrt (p : Z) : Z := w32 (Z.sqrt (p * 2 ^ 64)).

Definition H0 : state :=
  State (frac_sqrt 2) (frac_sqrt 3) (frac_sqrt 5) (frac_sqrt 7)
        (frac_sqrt 11) (frac_sqrt 13) (frac_sqrt 17) (frac_sqrt 19).

(** Big-endian bytes of a word. *)
Definition be4 (x : Z) : list Z :=
  [Z.shiftr x 24 mod 256; Z.shiftr x 16 mod 256; Z.shiftr x 8 mod 256; x mod 256].
Definition be8 (x : Z) : list Z := be4 (Z.shiftr x 32) ++ be4 (w32 x).

Definition word_of (b0 b1 b2 b3 : Z) : Z :=
  Z.lor (Z.lor (Z.shiftl b0 24) (Z.shiftl b1 16)) (Z.lor (Z.shiftl b2 8) b3).

Fixpoint words (bs : list Z) : list Z :=
  match bs with
  | b0 :: b1 :: b2 :: b3 :: t => word_of b0 b1 b2 b3 :: words t
  | _ => []
  end.

(** The message padded to a multiple of 64 bytes. *)
Definition pad (msg : list Z) : list Z :=
  let len := Z.of_nat (length msg) in
  msg ++ [0x80] ++ replicate (Z.to_nat ((55 - len) mod 64)) 0 ++ be8 (8 * len).

(** The message schedule: [n] further words after the sixteen of the block. *)
Fixpoint schedule (n : nat) (w : list Z) : list Z :=
  match n with
  | O => w
  | S n' =>
      let t := length w in
      let at_ (k : nat) := nth (t - k) w 0 in
      schedule n'
        (w ++ [add32 (add32 (ssig1 (at_ 2%nat)) (at_ 7%nat))
                     (add32 (ssig0 (at_ 15%nat)) (at_ 16%nat))])
  end.

Definition round (s : state) (kw : Z * Z) : state :=
  let t1 := add32 (add32 (add32 (hh s) (bsig1 (he s)))
                         (add32 (Ch (he s) (hf s) (hg s)) kw.1)) kw.2 in
  let t2 := add32 (bsig0 (ha s)) (Maj (ha s) (hb s) (hc s)) in
  State (add32 t1 t2) (ha s) (hb s) (hc s) (add32 (hd s) t1) (he s) (hf s) (hg s).

Definition compress (s : state) (block : list Z) : state :=
  let w := schedule 48 (words block) in
  let r := foldl round s (zip K w) in
  State (add32 (ha s) (ha r)) (add32 (hb s) (hb r))
        (add32 (hc s) (hc r)) (add32 (hd s) (hd r))
        (add32 (he s) (he r)) (add32 (hf s) (hf r))
        (add32 (hg s) (hg r)) (add32 (hh s) (hh r)).

Fixpoint blocks (n : nat) (s : state) (bs : list Z) : state :=
  match n with
  | O => s
  | S n' => blocks n' (compress s (take 64 bs)) (drop 64 bs)
  end.

Definition output (s : state) : list Z :=
  be4 (ha s) ++ be4 (hb s) ++ be4 (hc s) ++ be4 (hd s) ++
  be4 (he s) ++ be4 (hf s) ++ be4 (hg s) ++ be4 (hh s).

Definition digest (msg : list Z) : list Z :=
  let p := pad msg in
  output (blocks (length p / 64) H0 p).

End Sha256.

(** ** The content fingerprint *)

Import Js.

(** [ToString], as applied to the operand of [String(x)], [parseInt(x, _)]
    and a [USVString] argument. *)
Definition ToString (v : value) : jsstring :=
  match v with
  | Undefined => lit "undefined"
  | Null => lit "null"
  | Bool true => lit "true"
  | Bool false => lit "false"
  | Number n => number_toString n
  | BigInt z => decimal z
  | Str s => s
  end.

(** The argument of [encoder.encode(input)]: an omitted argument is the
    empty string, anything else goes through [ToString]. *)
Definition encode_arg (v : value) : jsstring :=
  match v with
  | Undefined => []
  | _ => ToString v
  end.

(** One turn of the loop [result = (result << 8n) + BigInt(low128[i])];
    [low128[i]] past the end is [undefined], on which [BigInt] throws. *)
Definition low128_step (low128 : list Z) (result : option Z) (i : nat) : option Z :=
  r ← result;
  b ← low128 !! i;
  Some (Z.shiftl r 8 + b).

(** [getLow128BitsOfSHA256(input)]; [None] stands for a thrown TypeError. *)
Definition getLow128BitsOfSHA256 (input : value) : option Z :=
  let data := TextEncoder_encode (encode_arg input) in
  let hashBuffer := Sha256.digest data in
  let low128 := drop 16 hashBuffer in
  foldl (low128_step low128) (Some 0) (seq 0 16).

(** The fingerprint in the words of the specification: bytes 16 to 31 of the
    hash, read as a big-endian unsigned integer. *)
Definition bytes_16_31 (h : list Z) : list Z :=
  (λ i, h !!! i) <$> seq 16 16.

Fixpoint big_endian (bs : list Z) : Z :=
  match bs with
  | [] => 0
  | b :: t => b * 256 ^ Z.of_nat (length t) + big_endian t
  end.

Definition fingerprint (s : jsstring) : Z :=
  big_endian (bytes_16_31 (Sha256.digest (TextEncoder_encode s))).

(** ** The SQLite store *)

Module Sql.

(** Stored values.  [SReal z] is the REAL with integral value [z]. *)
Inductive sqlval :=
| SNull
| SInt (z : Z)
| SReal (z : Z)
| SText (s : jsstring).

#[export] Instance sqlval_eq_dec : EqDecision sqlval.
Proof. solve_decision. Defined.

(** A number that is a 32-bit integer. *)
Definition is_int32 (z : Z) : bool := (- 2 ^ 31 <=? z) && (z <? 2 ^ 31).

(** How the driver binds a JavaScript value to a [?]: strings as TEXT,
    numbers that are 32-bit integers as INTEGER and other numbers as REAL,
    booleans as INTEGER, [null] as NULL; for any other value ([undefined],
    a BigInt) the parameter is left unbound, which the engine reads as
    NULL. *)
Definition bind (v : value) : sqlval :=
  match v with
  | Str s => SText s
  | Number (Num z) => if is_int32 z then SInt z else SReal z
  | Number NaN => SNull
  | Bool b => SInt (if b then 1 else 0)
  | Null | Undefined | BigInt _ => SNull
  end.

(** A column of a fetched row as a JavaScript value. *)
Definition to_js (v : sqlval) : value :=
  match v with
  | SNull => Null
  | SInt z | SReal z => Number (Num z)
  | SText s => Str s
  end.

(** Whitespace skipped by the engine in front of a numeral. *)
Definition is_sql_space (c : Z) : bool :=
  bool_decide (c ∈ [9; 10; 11; 12; 13; 32]).

Definition int64_clamp (z : Z) : Z :=
  Z.max (- 2 ^ 63) (Z.min (2 ^ 63 - 1) z).

(** [CAST(v AS INTEGER)]: the longest integer prefix of a text, 0 when
    there is none; NULL stays NULL. *)
Definition cast_integer (v : sqlval) : option Z :=
  match v with
  | SNull => None
  | SInt z | SReal z => Some z
  | SText s => Some (int64_clamp (default 0 (scan_signed (drop_while is_sql_space s))))
  end.

(** A text that is, as a whole and between optional spaces, a signed
    decimal integer. *)
Definition trim (s : jsstring) : jsstring :=
  reverse (drop_while is_sql_space (reverse (drop_while is_sql_space s))).

Definition integer_text (s : jsstring) : option Z :=
  let digits t := if forallb is_digit t then scan_digits None t else None in
  match trim s with
  | 45 :: t => Z.opp <$> digits t
  | 43 :: t => digits t
  | t => digits t
  end.

(** TEXT affinity: numbers are stored in their text form. *)
Definition text_affinity (v : sqlval) : sqlval :=
  match v with
  | SInt z => SText (decimal z)
  | SReal z => SText (decimal z ++ lit ".0")
  | _ => v
  end.

(** INTEGER affinity: an integral REAL and a text that reads as an integer
    are stored as INTEGER; any other text is kept.  (Texts that spell a
    number with a fraction or an exponent, and integers beyond 64 bits, lie
    outside the integral values modelled here.) *)
Definition integer_affinity (v : sqlval) : sqlval :=
  match v with
  | SReal z => SInt z
  | SText s =>
      match integer_text s with
      | Some z => if bool_decide (int64_clamp z = z) then SInt z else v
      | None => v
      end
  | _ => v
  end.

(** [a + b] followed by storage in an INTEGER column. *)
Definition add (a b : sqlval) : sqlval :=
  match cast_integer a, cast_integer b with
  | Some x, Some y => SInt (x + y)
  | _, _ => SNull
  end.

(** [col = ?] on a TEXT column: the parameter takes TEXT affinity; NULL
    equals nothing. *)
Definition text_eq (col param : sqlval) : bool :=
  match col, text_affinity param with
  | SText a, SText b => bool_decide (a = b)
  | _, _ => false
  end.

(** [rowid = ?]: the parameter takes INTEGER affinity; NULL equals nothing. *)
Definition rowid_eq (rowid : Z) (param : sqlval) : bool :=
  match integer_affinity param with
  | SInt z => rowid =? z
  | _ => false
  end.

(** [col = 0] on an INTEGER column. *)
Definition is_zero (col : sqlval) : bool :=
  match col with
  | SInt z => z =? 0
  | _ => false
  end.

End Sql.

Import Sql.

(** A row of [Markets], by declared column. *)
Module Market.
Record t := Row {
  id : sqlval;          (* TEXT PRIMARY KEY *)
  title : sqlval;       (* TEXT *)
  description : sqlval; (* TEXT *)
  expiration : sqlval;  (* TEXT *)
  creator : sqlval;     (* TEXT *)
  totalAmount : sqlval; (* INTEGER DEFAULT 0 *)
  IsExpired : sqlval;   (* INTEGER DEFAULT 0 *)
  IsVerified : sqlval   (* INTEGER DEFAULT 0 *)
}.

#[export] Instance eq_dec : EqDecision t.
Proof. solve_decision. Defined.

(** The object that [SELECT *] yields for a row: one property per declared
    column.  The table declares no INTEGER PRIMARY KEY, so the hidden
    [rowid] is not among the columns of [*]. *)
Definition select_star (r : t) : gmap string value :=
  {[ "id" := to_js (id r);
     "title" := to_js (title r);
     "description" := to_js (description r);
     "expiration" := to_js (expiration r);
     "creator" := to_js (creator r);
     "totalAmount" := to_js (totalAmount r);
     "IsExpired" := to_js (IsExpired r);
     "IsVerified" := to_js (IsVerified r) ]}.
End Market.

(** A row of [Bets]. *)
Module Bet.
Record t := Row {
  betId : sqlval;    (* TEXT PRIMARY KEY *)
  marketId : sqlval; (* TEXT *)
  userId : sqlval;   (* TEXT *)
  amount : sqlval;   (* INTEGER *)
  outcome : sqlval;  (* TEXT *)
  date : sqlval      (* TEXT *)
}.
End Bet.

(** The database: each table lists its rows by ascending rowid. *)
Record Db := MkDb {
  Markets : list (Z * Market.t);
  Bets : list (Z * Bet.t)
}.

(** [o.p] on a fetched row or a request body. *)
Definition prop (o : gmap string value) (p : string) : value :=
  default Undefined (o !! p).

(** The rowid given to an inserted row. *)
Definition next_rowid {A} (rows : list (Z * A)) : Z :=
  foldr (λ r m, Z.max r.1 m) 0 rows + 1.

(** [SELECT * FROM Markets WHERE IsVerified = 0 LIMIT 1]: the table is walked
    by rowid and the first hit is returned. *)
Definition first_unverified (m : list (Z * Market.t)) : option (Z * Market.t) :=
  snd <$> list_find (λ r, is_zero (Market.IsVerified r.2) = true) m.

Definition select_first_unverified (d : Db) : option (gmap string value) :=
  Market.select_star ∘ snd <$> first_unverified (Markets d).

(** The PRIMARY KEY on [Markets.id]: an update that would give the row
    [rowid] an id already held by some other row is refused. *)
Definition id_taken (m : list (Z * Market.t)) (rowid : Z) (new_id : sqlval) : bool :=
  bool_decide (new_id ≠ SNull) &&
  existsb (λ r, negb (r.1 =? rowid) && bool_decide (Market.id r.2 = new_id)) m.

(** [UPDATE Markets SET <set> WHERE rowid = ?]: every row whose rowid equals
    the parameter is replaced by [set] of it; [None] is the constraint
    failure, which leaves the table as it was. *)
Definition update_where_rowid (set : Market.t → Market.t) (p_rowid : sqlval)
    (m : list (Z * Market.t)) : option (list (Z * Market.t)) :=
  if existsb (λ r, rowid_eq r.1 p_rowid && id_taken m r.1 (Market.id (set r.2))) m
  then None
  else Some ((λ r, if rowid_eq r.1 p_rowid then (r.1, set r.2) else r) <$> m).

(** [SET id = ?, expiration = ?, creator = ?, totalAmount = ?, IsVerified = 1] *)
Definition set_verified (p_id p_expiration p_creator p_total : sqlval)
    (r : Market.t) : Market.t :=
  Market.Row (text_affinity p_id) (Market.title r) (Market.description r)
             (text_affinity p_expiration) (text_affinity p_creator)
             (integer_affinity p_total) (Market.IsExpired r) (SInt 1).

(** [SET id = ?] *)
Definition set_id (p_id : sqlval) (r : Market.t) : Market.t :=
  Market.Row (text_affinity p_id) (Market.title r) (Market.description r)
             (Market.expiration r) (Market.creator r)
             (Market.totalAmount r) (Market.IsExpired r) (Market.IsVerified r).

(** [SET totalAmount = totalAmount + ?] *)
Definition add_total (p_amount : sqlval) (r : Market.t) : Market.t :=
  Market.Row (Market.id r) (Market.title r) (Market.description r)
             (Market.expiration r) (Market.creator r)
             (Sql.add (Market.totalAmount r) p_amount)
             (Market.IsExpired r) (Market.IsVerified r).

(** The statements the server runs through [db.run]. *)
Inductive statement :=
| UpdateVerified (* UPDATE Markets SET id = ?, expiration = ?, creator = ?,
                    totalAmount = ?, IsVerified = 1 WHERE rowid = ? *)
| UpdateId       (* UPDATE Markets SET id = ? WHERE rowid = ? *)
| InsertBet      (* INSERT INTO Bets (betId, marketId, userId, amount,
                    outcome, date) VALUES (?, ?, ?, ?, ?, ?) *)
| UpdateTotal.   (* UPDATE Markets SET totalAmount = totalAmount + ?
                    WHERE id = ? *)

(** [db.run(statement, params)]: the database after the statement, or [None]
    when the engine reports an error and changes nothing. *)
Definition run (st : statement) (params : list value) (d : Db) : option Db :=
  match st, bind <$> params with
  | UpdateVerified, [p_id; p_expiration; p_creator; p_total; p_rowid] =>
      m ← update_where_rowid (set_verified p_id p_expiration p_creator p_total)
            p_rowid (Markets d);
      Some (MkDb m (Bets d))
  | UpdateId, [p_id; p_rowid] =>
      m ← update_where_rowid (set_id p_id) p_rowid (Markets d);
      Some (MkDb m (Bets d))
  | InsertBet, [p_bet; p_market; p_user; p_amount; p_outcome; p_date] =>
      let key := text_affinity p_bet in
      if bool_decide (key ≠ SNull) &&
         existsb (λ r, bool_decide (Bet.betId r.2 = key)) (Bets d)
      then None
      else Some (MkDb (Markets d)
                   (Bets d ++ [(next_rowid (Bets d),
                                Bet.Row key (text_affinity p_market)
                                  (text_affinity p_user) (integer_affinity p_amount)
                                  (text_affinity p_outcome) (text_affinity p_date))]))
  | UpdateTotal, [p_amount; p_id] =>
      Some (MkDb ((λ r, if text_eq (Market.id r.2) p_id
                        then (r.1, add_total p_amount r.2) else r) <$> Markets d)
                 (Bets d))
  | _, _ => None
  end.

(** ** Effects: the database, the log of accesses, thrown errors *)

(** The queries the server runs through [db.get]. *)
Inductive query :=
| SelectFirstUnverified (* SELECT * FROM Markets WHERE IsVerified = 0 LIMIT 1 *)
| SelectMaxId.          (* SELECT id FROM Markets
                           ORDER BY CAST(id AS INTEGER) DESC LIMIT 1 *)

Inductive event :=
| ContractList                                   (* contract.list() *)
| DbGet (q : query)                              (* db.get(...) *)
| DbRun (st : statement) (params : list value).  (* db.run(...) *)

Inductive exn :=
| RpcError   (* contract.list() rejected *)
| TypeError.

Record world := World { db : Db; trace : list event }.

(** A computation either returns or throws, and leaves a world behind. *)
Definition io (A : Type) : Type := world → (exn + A) * world.

#[export] Instance io_ret : MRet io := λ A (a : A) w, (inr a, w).
#[export] Instance io_bind : MBind io := λ A B (f : A → io B) (m : io A) w,
  match m w with
  | (inr a, w') => f a w'
  | (inl e, w') => (inl e, w')
  end.

Definition throw {A} (e : exn) : io A := λ w, (inl e, w).

Definition log (e : event) : io unit :=
  λ w, (inr (), World (db w) (trace w ++ [e])).

(** [try { body } catch (error) { handler }] *)
Definition try_catch {A} (body : io A) (handler : exn → io A) : io A :=
  λ w, match body w with
       | (inl e, w') => handler e w'
       | r => r
       end.

(** [await contract.list()]: the snapshot, or a rejection when [chain] is
    [None]. *)
Definition contract_list {A} (chain : option A) : io A :=
  _ ← log ContractList;
  match chain with
  | Some l => mret l
  | None => throw RpcError
  end.

Definition get_db : io Db := λ w, (inr (db w), w).
Definition put_db (d : Db) : io unit := λ w, (inr (), World d (trace w)).

Definition db_get {A} (q : query) (select : Db → A) : io A :=
  _ ← log (DbGet q);
  d ← get_db;
  mret (select d).

(** [db.run(st, params, callback)]; the result tells the callback whether
    [err] was set. *)
Definition db_run (st : statement) (params : list value) : io bool :=
  _ ← log (DbRun st params);
  d ← get_db;
  match run st params d with
  | Some d' => _ ← put_db d'; mret true
  | None => mret false
  end.

(** ** The on-chain list *)

(** An element of the array returned by [contract.list()]. *)
Module ChainQ.
Record t := Question {
  id : value;
  question_title_hash : value;
  expiration : value;
  creator : value;
  totalAmount : value
}.
End ChainQ.

(** [a === b] on primitive values. *)
Definition strict_eq (a b : value) : bool :=
  match a with
  | Number NaN => false
  | _ => bool_decide (a = b)
  end.

(** [x.toString()]: a TypeError on [undefined] and [null]. *)
Definition toString (x : value) : io jsstring :=
  match x with
  | Undefined | Null => throw TypeError
  | _ => mret (ToString x)
  end.

(** [parseInt(x, 10)] *)
Definition parseInt (x : value) : number := parseInt10 (ToString x).

(** ** Reconciliation *)

(** What one call of [update] reports on the console. *)
Inductive outcome :=
| NoPendingRecord                             (* No unverified records found. *)
| Verified (newId : jsstring)                 (* Verified market with new ID ... *)
| VerifyFailed                                (* Failed to update verified record *)
| Unmatched (suggestedId : jsstring) (written : bool)
      (* written: No hash match; updated ID to ...
         not written: No match and ID is already correct; no update needed. *)
| RenumberFailed.                             (* Failed to update unmatched record ID *)

(** [contractList.length > 0
      ? parseInt(contractList[contractList.length - 1].id, 10) : 0] *)
Definition lastId (contractList : list ChainQ.t) : number :=
  match last contractList with
  | Some q => parseInt (ChainQ.id q)
  | None => Num 0
  end.

(** [(lastId + 1).toString()] *)
Definition suggestedId (contractList : list ChainQ.t) : jsstring :=
  number_toString (number_succ (lastId contractList)).

(** The scan [for (const chainQ of contractList)] with its [break]. *)
Definition matchedContract (contractList : list ChainQ.t) (titleHash : Z)
    : option ChainQ.t :=
  List.find (λ chainQ, strict_eq (ChainQ.question_title_hash chainQ)
                                 (BigInt titleHash)) contractList.

Definition update (chain : option (list ChainQ.t)) : io outcome :=
  contractList ← contract_list chain;
  (* Step 1: Get first unverified record *)
  unverified ← db_get SelectFirstUnverified select_first_unverified;
  match unverified with
  | None => mret NoPendingRecord
  | Some unverified =>
      let originalId := prop unverified "id" in
      titleHash ← from_option mret (throw TypeError)
                    (getLow128BitsOfSHA256 (prop unverified "title"));
      match matchedContract contractList titleHash with
      | Some matchedContract =>
          (* Found a match: update id and mark as verified *)
          newId ← toString (ChainQ.id matchedContract);
          ok ← db_run UpdateVerified
                 [Str newId;
                  ChainQ.expiration matchedContract;
                  ChainQ.creator matchedContract;
                  ChainQ.totalAmount matchedContract;
                  prop unverified "rowid"];
          mret (if ok : bool then Verified newId else VerifyFailed)
      | None =>
          (* No match found: set ID = lastContractId + 1 (if it's different) *)
          let suggestedId := suggestedId contractList in
          if negb (strict_eq originalId (Str suggestedId)) then
            ok ← db_run UpdateId [Str suggestedId; prop unverified "rowid"];
            mret (if ok : bool then Unmatched suggestedId true else RenumberFailed)
          else
            mret (Unmatched suggestedId false)
      end
  end.

(** ** The endpoints *)

Record response := Response { status : Z; body : gmap string value }.

Definition json (o : gmap string value) : response := Response 200 o.

(** Lexicographic order of two byte strings. *)
Fixpoint bytes_lt (a b : list Z) : bool :=
  match a, b with
  | _, [] => false
  | [], _ :: _ => true
  | x :: a', y :: b' => (x <? y) || ((x =? y) && bytes_lt a' b')
  end.

(** The order of the primary-key index: NULL first, then text by its bytes. *)
Definition index_lt (a b : sqlval) : bool :=
  match a, b with
  | SNull, SNull => false
  | SNull, _ => true
  | SText s, SText t => bytes_lt (TextEncoder_encode s) (TextEncoder_encode t)
  | _, _ => false
  end.

(** The sort key of [ORDER BY CAST(id AS INTEGER) DESC]; NULL is the least. *)
Definition key_lt (a b : option Z) : bool :=
  match a, b with
  | None, Some _ => true
  | Some x, Some y => x <? y
  | _, _ => false
  end.

(** Whether row [r] comes before row [best] in the ordered result: by
    descending key, rows of equal key in the order of the index. *)
Definition comes_before (r best : Market.t) : bool :=
  let k := cast_integer (Market.id r) in
  let kb := cast_integer (Market.id best) in
  key_lt kb k || (bool_decide (k = kb) && index_lt (Market.id r) (Market.id best)).

(** [SELECT id FROM Markets ORDER BY CAST(id AS INTEGER) DESC LIMIT 1] *)
Definition top_row (m : list (Z * Market.t)) : option Market.t :=
  foldl (λ best r,
           match best with
           | Some b => if comes_before r.2 b then Some r.2 else best
           | None => Some r.2
           end) None m.

Definition select_max_id (d : Db) : option (gmap string value) :=
  (λ r, {[ "id" := to_js (Market.id r) ]}) <$> top_row (Markets d).

(** The callback of the query: [row && row.id
      ? (parseInt(row.id, 10) + 1).toString() : "1"] *)
Definition nextId (row : option (gmap string value)) : jsstring :=
  match row with
  | Some row =>
      if truthy (prop row "id")
      then number_toString (number_succ (parseInt (prop row "id")))
      else lit "1"
  | None => lit "1"
  end.

(** [app.get("/api/next-market-id", ...)] *)
Definition next_market_id (chain : option (list ChainQ.t)) : io response :=
  try_catch
    (_ ← update chain;
     row ← db_get SelectMaxId select_max_id;
     mret (json {[ "nextId" := Str (nextId row) ]}))
    (λ error,
       mret (Response 500 {[ "error" := Str (lit "Internal server error") ]})).

Section SaveBet.

(** The engine's conversion of a string to a number, as [amount <= 0]
    applies it to a string operand. *)
Variable StringToNumber : jsstring → number.

(** [v <= 0] *)
Definition le_zero (v : value) : bool :=
  match v with
  | Undefined => false
  | Null => true
  | Bool b => negb b
  | Number NaN => false
  | Number (Num z) | BigInt z => z <=? 0
  | Str s => match StringToNumber s with NaN => false | Num z => z <=? 0 end
  end.

(** [app.post("/api/save-bet", ...)]; [now] is [Date.now()]. *)
Definition save_bet (now : Z) (req_body : gmap string value) : io response :=
  let userId := prop req_body "userId" in
  let marketId := prop req_body "marketId" in
  let amount := prop req_body "amount" in
  let outcome := prop req_body "outcome" in
  let date := prop req_body "date" in
  if negb (truthy userId) || negb (truthy marketId) || negb (truthy amount)
     || negb (truthy outcome) || negb (truthy date)
  then mret (Response 400 {[ "error" := Str (lit "Missing required bet details") ]})
  else if le_zero amount
  then mret (Response 400 {[ "error" := Str (lit "Bet amount must be greater than 0") ]})
  else
    let betId := number_toString (Num now) in
    ok ← db_run InsertBet [Str betId; marketId; userId; amount; outcome; date];
    if negb ok
    then mret (Response 500 {[ "error" := Str (lit "Database error") ]})
    else
      (* Update totalAmount in Markets table *)
      ok ← db_run UpdateTotal [amount; marketId];
      if negb ok
      then mret (Response 500 {[ "error" := Str (lit "Failed to update market totalAmount") ]})
      else mret (json {[ "success" := Bool true;
                         "message" := Str (lit "Bet saved and totalAmount updated successfully") ]}).

End SaveBet.

(** Runs a computation on a database with an empty log. *)
Definition exec {A} (m : io A) (d : Db) : (exn + A) * world := m (World d []).
(** The log of a call up to its query for a pending record. *)
Definition queried : list event := [ContractList; DbGet SelectFirstUnverified].

(** ** Example data *)

(** A freshly saved market: unverified, nothing staked. *)
Definition pending (id title : string) : Market.t :=
  Market.Row (SText (lit id)) (SText (lit title)) SNull
             (SText (lit "2026-12-31")) (SText (lit "0xc0ffee"))
             (SInt 0) (SInt 0) (SInt 0).

(** A market that the reconciliation has matched. *)
Definition verified (id title : string) : Market.t :=
  Market.Row (SText (lit id)) (SText (lit title)) SNull
             (SText (lit "2026-12-31")) (SText (lit "0xc0ffee"))
             (SInt 0) (SInt 0) (SInt 1).

(** A ledger entry for the title [title]. *)
Definition on_chain (id title : string) : ChainQ.t :=
  ChainQ.Question (Str (lit id)) (BigInt (fingerprint (lit title)))
                  (Str (lit "2027-01-31")) (Str (lit "0xfeed")) (Number (Num 7)).

(** ** Counting the accesses of a log *)

Definition is_read (e : event) : bool :=
  match e with DbGet _ => true | _ => false end.

Definition is_write (e : event) : bool :=
  match e with DbRun _ _ => true | _ => false end.

Definition reads (t : list event) : nat := length (List.filter is_read t).
Definition writes (t : list event) : nat := length (List.filter is_write t).

(** What a single UPDATE may do to a row: leave it, or apply its whole SET. *)
Definition whole_or_none (set : Market.t → Market.t) (r r' : Z * Market.t) : Prop :=
  r' = r ∨ r' = (r.1, set r.2).

(** ** The server as a state machine *)

(** The requests that run an UPDATE on [Markets]: the reconciliation behind
    next-market-id, and save-bet.  (The third write endpoint, save-market,
    only inserts rows.) *)
Inductive request :=
| NextMarketId (chain : option (list ChainQ.t))
| SaveBet (now : Z) (req_body : gmap string value).

Definition handle (StringToNumber : jsstring → number) (d : Db) (rq : request) : Db :=
  match rq with
  | NextMarketId chain => db (exec (next_market_id chain) d).2
  | SaveBet now req_body => db (exec (save_bet StringToNumber now req_body) d).2
  end.

(** Two versions of a row that differ at most in [totalAmount]. *)
Definition same_market (r r' : Z * Market.t) : Prop :=
  r'.1 = r.1 ∧
  Market.id r'.2 = Market.id r.2 ∧
  Market.title r'.2 = Market.title r.2 ∧
  Market.description r'.2 = Market.description r.2 ∧
  Market.expiration r'.2 = Market.expiration r.2 ∧
  Market.creator r'.2 = Market.creator r.2 ∧
  Market.IsExpired r'.2 = Market.IsExpired r.2 ∧
  Market.IsVerified r'.2 = Market.IsVerified r.2.

(** ** The next identity in the words of the specification *)

(** An identity compared as an integer: [CAST(id AS INTEGER)]. *)
Definition identity_as_integer (r : Market.t) : Z :=
  default 0 (cast_integer (Market.id r)).

(** The maximum of the identities of all records, none for the empty
    relation. *)
Fixpoint max_identity (m : list (Z * Market.t)) : option Z :=
  match m with
  | [] => None
  | r :: t =>
      Some (match max_identity t with
            | Some x => Z.max (identity_as_integer r.2) x
            | None => identity_as_integer r.2
            end)
  end.

(** Stringified (maximum identity + 1), or "1" when the relation is empty. *)
Definition spec_next_id (m : list (Z * Market.t)) : jsstring :=
  match max_identity m with
  | Some n => decimal (n + 1)
  | None => lit "1"
  end.

(** An identity that is the decimal numeral of a natural number in the safe
    range of [Number]. *)
Definition numeral_id (r : Market.t) : Prop :=
  ∃ n, 0 <= n < 2 ^ 53 - 1 ∧ Market.id r = SText (decimal n).

(** A save-bet request lacks the field [p]. *)
Definition missing (req_body : gmap string value) (p : string) : Prop :=
  prop req_body p = Undefined.

(** ** The remaining endpoints *)

(** What is handed to [res.json]: a primitive value, an array, or an object
    with its properties. *)
#[warnings="-register-all"]
Inductive jsonval :=
| JVal (v : value)
| JArr (l : list jsonval)
| JObj (o : gmap string jsonval).

(** A fetched row, or any flat object, as a JSON object. *)
Definition obj (o : gmap string value) : jsonval := JObj (JVal <$> o).

(** The array of rows that [db.all] yields. *)
Definition rows (l : list (gmap string value)) : jsonval := JArr (obj <$> l).

Record reply := Reply { code : Z; payload : jsonval }.

(** [res.status(c).json({ error: msg })] *)
Definition error_reply (c : Z) (msg : string) : reply :=
  Reply c (JObj {[ "error" := JVal (Str (lit msg)) ]}).

(** [res.json({ success: true, message: msg })] *)
Definition success_reply (msg : string) : reply :=
  Reply 200 (JObj {[ "success" := JVal (Bool true);
                     "message" := JVal (Str (lit msg)) ]}).

(** [SELECT id FROM Markets WHERE id = ?] through [db.get]. *)
Definition select_id_where_id (p_id : value) (d : Db) : option (gmap string value) :=
  (λ r, {[ "id" := to_js (Market.id r.2) ]}) <$>
  List.find (λ r, text_eq (Market.id r.2) (bind p_id)) (Markets d).

(** [INSERT INTO Markets (id, title, description, expiration, creator,
    totalAmount) VALUES (?, ?, ?, ?, ?, ?)]: the new row takes the next
    rowid and the defaults of [IsExpired] and [IsVerified]; [None] is the
    failure of the PRIMARY KEY on [id]. *)
Definition insert_market (params : list value) (d : Db) : option Db :=
  match bind <$> params with
  | [p_id; p_title; p_description; p_expiration; p_creator; p_total] =>
      let key := text_affinity p_id in
      if bool_decide (key ≠ SNull) &&
         existsb (λ r, bool_decide (Market.id r.2 = key)) (Markets d)
      then None
      else Some (MkDb (Markets d ++
                         [(next_rowid (Markets d),
                           Market.Row key (text_affinity p_title)
                             (text_affinity p_description)
                             (text_affinity p_expiration)
                             (text_affinity p_creator)
                             (integer_affinity p_total) (SInt 0) (SInt 0))])
                      (Bets d))
  | _ => None
  end.

(** [app.post("/api/save-market", ...)], in state-passing style. *)
Definition save_market (req_body : gmap string value) (d : Db) : reply * Db :=
  let id := prop req_body "id" in
  let title := prop req_body "title" in
  let description := prop req_body "description" in
  let expiration := prop req_body "expiration" in
  let creator := prop req_body "creator" in
  if negb (truthy id) || negb (truthy title) || negb (truthy expiration)
     || negb (truthy creator)
  then (Reply 400
          (JObj {[ "error" := JVal (Str (lit "Missing required fields"));
                   "missingFields" :=
                     obj {[ "id" := id; "title" := title;
                            "expiration" := expiration; "creator" := creator ]} ]}),
        d)
  else
    match select_id_where_id id d with
    | Some existingMarket =>
        (* If market exists, prevent updates to any field except totalAmount *)
        (error_reply 400 "Market already exists. Only totalAmount can be updated.", d)
    | None =>
        (* Insert new market with totalAmount defaulting to 0 *)
        match insert_market [id; title; description; expiration; creator;
                             Number (Num 0)] d with
        | None => (error_reply 500 "Database error", d)
        | Some d' => (success_reply "Market saved successfully", d')
        end
    end.

(** The object that [SELECT *] yields for a row of [Bets]. *)
Definition bet_star (r : Bet.t) : gmap string value :=
  {[ "betId" := to_js (Bet.betId r);
     "marketId" := to_js (Bet.marketId r);
     "userId" := to_js (Bet.userId r);
     "amount" := to_js (Bet.amount r);
     "outcome" := to_js (Bet.outcome r);
     "date" := to_js (Bet.date r) ]}.

(** [SELECT * FROM Bets WHERE userId = ?] through [db.all]. *)
Definition select_bets_of_user (userId : jsstring) (d : Db) : list (gmap string value) :=
  bet_star ∘ snd <$>
  List.filter (λ r, text_eq (Bet.userId r.2) (SText userId)) (Bets d).

(** [app.get("/api/user-bets/:userId", ...)] *)
Definition user_bets (userId : jsstring) (d : Db) : reply :=
  let bets := select_bets_of_user userId d in
  Reply 200 (JObj {[ "success" := JVal (Bool true); "bets" := rows bets ]}).

(** [SELECT * FROM Markets WHERE id = ?] through [db.get]. *)
Definition select_market (marketId : jsstring) (d : Db) : option (gmap string value) :=
  Market.select_star ∘ snd <$>
  List.find (λ r, text_eq (Market.id r.2) (SText marketId)) (Markets d).

(** [SELECT userId, amount, outcome, date FROM Bets WHERE marketId = ?]
    through [db.all]. *)
Definition select_bets_of_market (marketId : jsstring) (d : Db) : list (gmap string value) :=
  (λ r, {[ "userId" := to_js (Bet.userId r.2);
           "amount" := to_js (Bet.amount r.2);
           "outcome" := to_js (Bet.outcome r.2);
           "date" := to_js (Bet.date r.2) ]}) <$>
  List.filter (λ r, text_eq (Bet.marketId r.2) (SText marketId)) (Bets d).

(** ToNumber on the values that are not strings or BigInts. *)
Definition to_number (v : value) : number :=
  match v with
  | Null => Num 0
  | Bool b => Num (if b then 1 else 0)
  | Number n => n
  | _ => NaN
  end.

(** [a + b]: concatenation when either side is a string, the sum of two
    BigInts or of two numbers otherwise; [None] is the TypeError on mixing a
    BigInt with a number. *)
Definition plus (a b : value) : option value :=
  match a, b with
  | Str _, _ | _, Str _ => Some (Str (ToString a ++ ToString b))
  | BigInt x, BigInt y => Some (BigInt (x + y))
  | BigInt _, _ | _, BigInt _ => None
  | _, _ =>
      Some (Number (match to_number a, to_number b with
                    | Num x, Num y => Num (x + y)
                    | _, _ => NaN
                    end))
  end.

(** [bets.reduce((sum, bet) => sum + bet.amount, 0)] *)
Definition totalBetAmount (bets : list (gmap string value)) : option value :=
  foldl (λ sum bet, s ← sum; plus s (prop bet "amount")) (Some (Number (Num 0))) bets.

(** [app.get("/api/market/:marketId", ...)]; [None] is a TypeError thrown
    inside the callback. *)
Definition market (marketId : jsstring) (d : Db) : option reply :=
  match select_market marketId d with
  | None => Some (error_reply 404 "Market not found")
  | Some market =>
      let bets := select_bets_of_market marketId d in
      totalBetAmount ← totalBetAmount bets;
      Some (Reply 200
              (JObj (<[ "totalBetAmount" := JVal totalBetAmount ]>
                       (<[ "bets" := rows bets ]> (JVal <$> market)))))
  end.

(** [app.get("/api/markets", ...)] *)
Definition markets (d : Db) : reply :=
  Reply 200 (rows (Market.select_star ∘ snd <$> Markets d)).

(** ** The server with all its write endpoints *)

Inductive call :=
| CallSaveMarket (req_body : gmap string value)
| CallSaveBet (now : Z) (req_body : gmap string value)
| CallNextMarketId (chain : option (list ChainQ.t)).

Definition step (StringToNumber : jsstring → number) (d : Db) (c : call) : Db :=
  match c with
  | CallSaveMarket req_body => (save_market req_body d).2
  | CallSaveBet now req_body => db (exec (save_bet StringToNumber now req_body) d).2
  | CallNextMarketId chain => db (exec (next_market_id chain) d).2
  end.

(** The database the server starts from. *)
Definition empty_db : Db := MkDb [] [].

(** A save-market body whose required fields are strings; no description. *)
Definition market_body (id title expiration creator : jsstring) : gmap string value :=
  {[ "id" := Str id; "title" := Str title;
     "expiration" := Str expiration; "creator" := Str creator ]}.

(** A save-bet body with string fields and an integer amount. *)
Definition bet_body (userId marketId : jsstring) (amount : Z) (outcome date : jsstring)
    : gmap string value :=
  {[ "userId" := Str userId; "marketId" := Str marketId;
     "amount" := Number (Num amount); "outcome" := Str outcome;
     "date" := Str date ]}.

(** The row that a valid save-bet request stores. *)
Definition bet_row (now : Z) (userId marketId : jsstring) (amount : Z)
    (outcome date : jsstring) : Bet.t :=
  Bet.Row (SText (decimal now)) (SText marketId) (SText userId) (SInt amount)
          (SText outcome) (SText date).

(** The row that a valid save-market request stores. *)
Definition market_row (id title expiration creator : jsstring) : Market.t :=
  Market.Row (SText id) (SText title) SNull (SText expiration) (SText creator)
             (SInt 0) (SInt 0) (SInt 0).

(** A property of the object a reply carries. *)
Definition payload_field (r : reply) (p : string) : option jsonval :=
  match payload r with
  | JObj o => o !! p
  | _ => None
  end.

(** The identities held by the relation, in table order. *)
Definition identities (d : Db) : list sqlval := (λ r, Market.id r.2) <$> Markets d.

(** The fingerprint that [update] computes for a fetched row. *)
Definition titleHash (r : Market.t) : Z :=
  fingerprint (encode_arg (to_js (Market.title r))).

(** What [UPDATE Markets SET totalAmount = totalAmount + a WHERE id = m]
    does to a row, for a text [m] and an integer [a]. *)
Definition stake (m : jsstring) (a : Z) (r : Z * Market.t) : Z * Market.t :=
  if bool_decide (Market.id r.2 = SText m) then (r.1, add_total (SInt a) r.2) else r.

(** A bet with the key [betId] is stored. *)
Definition bet_stored (betId : jsstring) (d : Db) : bool :=
  existsb (λ r, bool_decide (Bet.betId r.2 = SText betId)) (Bets d).

(** The parameters of the INSERT that save-bet runs for [bet_body]. *)
Definition bet_params (now : Z) (userId marketId : jsstring) (amount : Z)
    (outcome date : jsstring) : list value :=
  [Str (decimal now); Str marketId; Str userId; Number (Num amount);
   Str outcome; Str date].

(** The text of an identity; NULL has none. *)
Definition id_text (r : Z * Market.t) : option jsstring :=
  match Market.id r.2 with
  | SText s => Some s
  | _ => None
  end.

(** The texts of the identities held by the relation, in table order. *)
Definition text_identities (d : Db) : list jsstring := omap id_text (Markets d).

(** The reply of save-market to a request that lacks a required field. *)
Definition missing_fields_reply (req_body : gmap string value) : reply :=
  Reply 400
    (JObj {[ "error" := JVal (Str (lit "Missing required fields"));
             "missingFields" :=
               obj {[ "id" := prop req_body "id"; "title" := prop req_body "title";
                      "expiration" := prop req_body "expiration";
                      "creator" := prop req_body "creator" ]} ]}).

(** The bets stored for a market, and the sum of their integer amounts. *)
Definition bets_of_market (marketId : jsstring) (d : Db) : list (Z * Bet.t) :=
  List.filter (λ r, text_eq (Bet.marketId r.2) (SText marketId)) (Bets d).




(** * Properties *)

(** ** The fingerprint *)

(** The digests of "abc" and of the empty message (FIPS 180-4 test
    vectors), and an encoding that exercises two-, three- and four-byte
    sequences and a lone surrogate. *)
Example digest_abc :
  Sha256.digest (TextEncoder_encode (lit "abc"))
  = [0xba; 0x78; 0x16; 0xbf; 0x8f; 0x01; 0xcf; 0xea; 0x41; 0x41; 0x40; 0xde;
     0x5d; 0xae; 0x22; 0x23; 0xb0; 0x03; 0x61; 0xa3; 0x96; 0x17; 0x7a; 0x9c;
     0xb4; 0x10; 0xff; 0x61; 0xf2; 0x00; 0x15; 0xad].
Proof. vm_compute. reflexivity. Qed.

Example digest_empty :
  Sha256.digest []
  = [0xe3; 0xb0; 0xc4; 0x42; 0x98; 0xfc; 0x1c; 0x14; 0x9a; 0xfb; 0xf4; 0xc8;
     0x99; 0x6f; 0xb9; 0x24; 0x27; 0xae; 0x41; 0xe4; 0x64; 0x9b; 0x93; 0x4c;
     0xa4; 0x95; 0x99; 0x1b; 0x78; 0x52; 0xb8; 0x55].
Proof. vm_compute. reflexivity. Qed.

Example encode_mixed :
  TextEncoder_encode [0xE9; 0x20AC; 0xD83D; 0xDE00; 0xD800]
  = [0xC3; 0xA9; 0xE2; 0x82; 0xAC; 0xF0; 0x9F; 0x98; 0x80; 0xEF; 0xBF; 0xBD].
Proof. reflexivity. Qed.

Lemma digest_length msg : length (Sha256.digest msg) = 32%nat.
Proof. reflexivity. Qed.

Lemma be4_bytes x : Forall (λ b, 0 <= b < 256) (Sha256.be4 x).
Proof.
  unfold Sha256.be4. repeat constructor; apply Z.mod_pos_bound; lia.
Qed.

Lemma digest_bytes msg : Forall (λ b, 0 <= b < 256) (Sha256.digest msg).
Proof.
  unfold Sha256.digest, Sha256.output.
  repeat (apply Forall_app; split); apply be4_bytes.
Qed.

(** The loop of the source, run over the indices [i .. i + n - 1] of an array
    that has them, is Horner's rule on that slice. *)
Lemma low128_loop (l : list Z) n : ∀ i a,
  (i + n ≤ length l)%nat →
  foldl (low128_step l) (Some a) (seq i n)
  = Some (foldl (λ r b, r * 256 + b) a (take n (drop i l))).
Proof.
  induction n as [|n IH]; intros i a Hlen; [done|].
  destruct (lookup_lt_is_Some_2 l i) as [b Hb]; [lia|].
  rewrite (drop_S _ _ _ Hb). cbn [seq foldl take].
  unfold low128_step at 2. cbn. rewrite Hb. cbn.
  rewrite IH by lia. by rewrite Z.shiftl_mul_pow2.
Qed.

Lemma horner_big_endian (bs : list Z) : ∀ a,
  foldl (λ r b, r * 256 + b) a bs = a * 256 ^ Z.of_nat (length bs) + big_endian bs.
Proof.
  induction bs as [|b bs IH]; intros a; cbn [foldl big_endian length].
  - change (256 ^ Z.of_nat 0) with 1. lia.
  - rewrite IH, Nat2Z.inj_succ, Z.pow_succ_r by lia. lia.
Qed.

Lemma big_endian_range (bs : list Z) :
  Forall (λ b, 0 <= b < 256) bs → 0 <= big_endian bs < 256 ^ Z.of_nat (length bs).
Proof.
  induction 1 as [|b bs Hb _ IH]; cbn [big_endian length].
  - change (256 ^ Z.of_nat 0) with 1. lia.
  - rewrite Nat2Z.inj_succ, Z.pow_succ_r by lia. nia.
Qed.

Lemma bytes_16_31_drop (h : list Z) : length h = 32%nat → bytes_16_31 h = drop 16 h.
Proof.
  intros Hlen. do 32 (destruct h as [|? h]; [discriminate|]).
  destruct h; [reflexivity | discriminate].
Qed.

Lemma getLow128BitsOfSHA256_eq (input : value) :
  getLow128BitsOfSHA256 input = Some (fingerprint (encode_arg input)).
Proof.
  unfold getLow128BitsOfSHA256, fingerprint.
  set (h := Sha256.digest _).
  assert (Hh : length h = 32%nat) by apply digest_length.
  rewrite low128_loop by (rewrite length_drop; lia).
  rewrite horner_big_endian, bytes_16_31_drop by done.
  rewrite drop_0, take_ge by (rewrite length_drop; lia). done.
Qed.

(** C2: the fingerprint of a string [s] is bytes 16 to 31 of the 32-byte
    SHA-256 hash of the UTF-8 encoding of [s], read as a big-endian unsigned
    128-bit integer; [getLow128BitsOfSHA256] returns it for every string
    (it never throws), and so returns the same value on every call. *)
Theorem fingerprint_low_128_bits (s : jsstring) :
  length (Sha256.digest (TextEncoder_encode s)) = 32%nat ∧
  getLow128BitsOfSHA256 (Str s)
  = Some (big_endian (bytes_16_31 (Sha256.digest (TextEncoder_encode s)))) ∧
  0 <= big_endian (bytes_16_31 (Sha256.digest (TextEncoder_encode s))) < 2 ^ 128.
Proof.
  split; [apply digest_length|]. split; [apply getLow128BitsOfSHA256_eq|].
  rewrite bytes_16_31_drop by apply digest_length.
  pose proof (big_endian_range (drop 16 (Sha256.digest (TextEncoder_encode s)))) as H.
  rewrite length_drop, digest_length in H.
  apply H, Forall_drop, digest_bytes.
Qed.

(** ** The monad's equations *)

Lemma bind_eq {A B} (m : io A) (f : A → io B) w :
  (m ≫= f) w = match m w with
               | (inr a, w') => f a w'
               | (inl e, w') => (inl e, w')
               end.
Proof. reflexivity. Qed.

Lemma ret_eq {A} (a : A) w : (mret a : io A) w = (inr a, w).
Proof. reflexivity. Qed.

Lemma contract_list_eq {A} (chain : option A) w :
  contract_list chain w
  = (match chain with Some l => inr l | None => inl RpcError end,
     World (db w) (trace w ++ [ContractList])).
Proof. by destruct chain. Qed.

Lemma db_get_eq {A} q (select : Db → A) w :
  db_get q select w = (inr (select (db w)), World (db w) (trace w ++ [DbGet q])).
Proof. reflexivity. Qed.

Lemma db_run_eq st params w :
  db_run st params w
  = (inr (bool_decide (is_Some (run st params (db w)))),
     World (default (db w) (run st params (db w)))
           (trace w ++ [DbRun st params])).
Proof.
  unfold db_run. rewrite bind_eq. cbn. rewrite bind_eq. cbn.
  by destruct (run st params (db w)).
Qed.

(** ** The statements on a row handle *)

Lemma update_where_rowid_null set m : update_where_rowid set SNull m = Some m.
Proof.
  unfold update_where_rowid.
  replace (existsb _ m) with false by (by induction m).
  f_equal. rewrite <- (list_fmap_id m) at 2. by apply list_fmap_ext.
Qed.

Lemma select_star_rowid r : prop (Market.select_star r) "rowid" = Undefined.
Proof. reflexivity. Qed.

Lemma select_first_unverified_rowid d o :
  select_first_unverified d = Some o → prop o "rowid" = Undefined.
Proof.
  unfold select_first_unverified. destruct (first_unverified _) as [[k r]|]; [|done].
  intros [= <-]. apply select_star_rowid.
Qed.

Lemma run_rowid_undefined_verified a b c e d :
  run UpdateVerified [a; b; c; e; Undefined] d = Some d.
Proof. destruct d. cbn. by rewrite update_where_rowid_null. Qed.

Lemma run_rowid_undefined_id a d : run UpdateId [a; Undefined] d = Some d.
Proof. destruct d. cbn. by rewrite update_where_rowid_null. Qed.

(** ** What one call of [update] does *)

(** The fetched row carries no [rowid], so both UPDATE statements are run
    with an unbound row handle and leave every row as it was. *)
Lemma update_eq chain d t :
  update chain (World d t) =
  match chain with
  | None => (inl RpcError, World d (t ++ [ContractList]))
  | Some contractList =>
      match select_first_unverified d with
      | None => (inr NoPendingRecord, World d (t ++ queried))
      | Some unverified =>
          match matchedContract contractList
                  (fingerprint (encode_arg (prop unverified "title"))) with
          | Some q =>
              if bool_decide (ChainQ.id q = Undefined ∨ ChainQ.id q = Null)
              then (inl TypeError, World d (t ++ queried))
              else (inr (Verified (ToString (ChainQ.id q))),
                    World d (t ++ queried ++
                      [DbRun UpdateVerified
                         [Str (ToString (ChainQ.id q)); ChainQ.expiration q;
                          ChainQ.creator q; ChainQ.totalAmount q; Undefined]]))
          | None =>
              let s := suggestedId contractList in
              if strict_eq (prop unverified "id") (Str s)
              then (inr (Unmatched s false), World d (t ++ queried))
              else (inr (Unmatched s true),
                    World d (t ++ queried ++ [DbRun UpdateId [Str s; Undefined]]))
          end
      end
  end.
Proof.
  unfold update. rewrite bind_eq, contract_list_eq. cbn [db trace].
  destruct chain as [contractList|]; [|done].
  rewrite bind_eq, db_get_eq. cbn [db trace]. rewrite <- app_assoc.
  destruct (select_first_unverified d) as [unverified|] eqn:Hsel; [|done].
  rewrite (select_first_unverified_rowid _ _ Hsel).
  rewrite bind_eq, getLow128BitsOfSHA256_eq. cbn [from_option].
  rewrite ret_eq. cbv beta iota.
  destruct (matchedContract _ _) as [q|].
  - rewrite bind_eq.
    destruct (ChainQ.id q) eqn:Hid; cbn [toString];
      first [ rewrite bool_decide_eq_true_2 by (by auto); reflexivity
            | rewrite bool_decide_eq_false_2 by (by intros [?|?]) ];
      rewrite ret_eq; cbv beta iota;
      rewrite bind_eq, db_run_eq; cbn [db trace];
      rewrite run_rowid_undefined_verified; cbn [default];
      rewrite bool_decide_eq_true_2 by eauto;
      by rewrite <- app_assoc.
  - cbv zeta. destruct (strict_eq _ _); cbn [negb]; [done|].
    rewrite bind_eq, db_run_eq. cbn [db trace].
    rewrite run_rowid_undefined_id. cbn [default].
    rewrite bool_decide_eq_true_2 by eauto.
    by rewrite <- app_assoc.
Qed.

Lemma exec_update_eq chain d :
  exec (update chain) d = update chain (World d []).
Proof. reflexivity. Qed.

(** A call of [update] leaves the database as it found it. *)
Lemma update_db chain w : db (update chain w).2 = db w.
Proof.
  destruct w as [d t]. rewrite update_eq. cbv zeta.
  repeat case_match; reflexivity.
Qed.

(** C1: a pending record titled "T" and a snapshot whose one entry has the
    fingerprint of "T" and identity "42".  The call reports
    [Verified "42"], yet the record keeps identity "1" and stays
    unverified: the UPDATE is run with [unverified.rowid], which the row
    fetched by [SELECT *] does not have, so its handle is unbound and no row
    is rewritten. *)
Theorem match_found_record_not_rewritten :
  let d := MkDb [(1, pending "1" "T")] [] in
  let q := on_chain "42" "T" in
  exec (update (Some [q])) d
  = (inr (Verified (lit "42")),
     World d [ContractList; DbGet SelectFirstUnverified;
              DbRun UpdateVerified
                [Str (lit "42"); ChainQ.expiration q; ChainQ.creator q;
                 ChainQ.totalAmount q; Undefined]])
  ∧ Market.id (pending "1" "T") = SText (lit "1")
  ∧ Market.IsVerified (pending "1" "T") = SInt 0
  ∧ run UpdateVerified
      [Str (lit "42"); ChainQ.expiration q; ChainQ.creator q;
       ChainQ.totalAmount q; Number (Num 1)] d
    = Some (MkDb [(1, Market.Row (SText (lit "42")) (SText (lit "T")) SNull
                        (SText (lit "2027-01-31")) (SText (lit "0xfeed"))
                        (SInt 7) (SInt 0) (SInt 1))] []).
Proof. vm_compute. done. Qed.

(** C3: a pending record with identity "5" whose title is not on the ledger,
    and a snapshot whose last entry has identity "7".  The suggested
    identity is "8" and the call reports that it was written, yet the
    record keeps identity "5": the UPDATE is run with the same missing
    [unverified.rowid] and rewrites no row. *)
Theorem no_match_identity_not_rewritten :
  let d := MkDb [(1, pending "5" "Will it rain?")] [] in
  let l := [on_chain "6" "Will it snow?"; on_chain "7" "Will it hail?"] in
  suggestedId l = lit "8"
  ∧ suggestedId [] = lit "1"
  ∧ exec (update (Some l)) d
    = (inr (Unmatched (lit "8") true),
       World d [ContractList; DbGet SelectFirstUnverified;
                DbRun UpdateId [Str (lit "8"); Undefined]])
  ∧ Market.id (pending "5" "Will it rain?") = SText (lit "5")
  ∧ run UpdateId [Str (lit "8"); Number (Num 1)] d
    = Some (MkDb [(1, pending "8" "Will it rain?")] []).
Proof. vm_compute. done. Qed.

(** ** Two calls in a row *)

(** C4 as stated fails: the record "5" of the no-match example is the sole
    pending record; the first call reports that it renumbered it to the
    suggested "8", and the second call, on the same snapshot, does not
    report [NoPendingRecord].  Nor does a call on the state the renumbering
    aims at, where the record carries "8": it is still unverified, is
    selected, and the call reports [Unmatched "8"], nothing written. *)
Lemma second_call_after_renumbering_finds_pending :
  let d := MkDb [(1, pending "5" "Will it rain?")] [] in
  let l := [on_chain "6" "Will it snow?"; on_chain "7" "Will it hail?"] in
  (∃ w, exec (update (Some l)) d = (inr (Unmatched (lit "8") true), w)
        ∧ (exec (update (Some l)) (db w)).1 ≠ inr NoPendingRecord)
  ∧ (exec (update (Some l)) (MkDb [(1, pending "8" "Will it rain?")] [])).1
    = inr (Unmatched (lit "8") false).
Proof.
  split; [|vm_compute; reflexivity].
  eexists. split; [vm_compute; reflexivity|]. vm_compute. discriminate.
Qed.

(** C4 (amended): with the snapshot unchanged and no record added, a call
    that follows a no-match call does not report [NoPendingRecord]: the
    record is still unverified, is selected again, and the call reports
    [Unmatched] with the same suggested identity. *)
Theorem second_call_after_no_match l d s written w :
  exec (update (Some l)) d = (inr (Unmatched s written), w) →
  ∃ written', (exec (update (Some l)) (db w)).1 = inr (Unmatched s written').
Proof.
  intros H. exists written.
  replace (db w) with d.
  - by rewrite H.
  - change d with (db (World d [])). rewrite <- (update_db (Some l) (World d [])).
    rewrite <- exec_update_eq, H. done.
Qed.

Lemma second_call_after_no_match_witness :
  ∃ written',
    (exec (update (Some [on_chain "7" "Will it hail?"]))
          (MkDb [(1, pending "5" "Will it rain?")] [])).1
    = inr (Unmatched (lit "8") written').
Proof.
  apply (second_call_after_no_match [on_chain "7" "Will it hail?"]
           (MkDb [(1, pending "5" "Will it rain?")] []) (lit "8") true
           (World (MkDb [(1, pending "5" "Will it rain?")] [])
                  [ContractList; DbGet SelectFirstUnverified;
                   DbRun UpdateId [Str (lit "8"); Undefined]])).
  vm_compute. reflexivity.
Defined.

(** ** Failures and empty work *)

(** C5: when the ledger fetch fails, [update] throws the transport error
    with nothing but the fetch in its log: no [db.get], no [db.run]; the
    database, and so every unverified record and each of its fields, is as
    before. *)
Theorem ledger_failure_aborts_before_store (d : Db) :
  exec (update None) d = (inl RpcError, World d [ContractList]).
Proof. reflexivity. Qed.

Lemma first_unverified_None m :
  first_unverified m = None ↔
  ∀ k r, (k, r) ∈ m → is_zero (Market.IsVerified r) = false.
Proof.
  unfold first_unverified. rewrite fmap_None, list_find_None, Forall_forall.
  split.
  - intros H k r Hin. specialize (H _ Hin). cbn in H. by destruct (is_zero _).
  - intros H [k r] Hin. cbn. by rewrite (H _ _ Hin).
Qed.

Lemma first_unverified_Some m k r :
  first_unverified m = Some (k, r) →
  (k, r) ∈ m ∧ is_zero (Market.IsVerified r) = true.
Proof.
  unfold first_unverified. intros H.
  apply fmap_Some in H as [[i x] [H Heq]]. cbn in Heq. subst x.
  apply list_find_Some in H as (Hi & Hz & _).
  split; [by eapply list_elem_of_lookup_2 | done].
Qed.

(** C6: when no record has [IsVerified = 0], [update] reports
    [NoPendingRecord]; its log holds the ledger fetch and the one query for
    a pending record, no [db.run], and the database is as before. *)
Theorem no_pending_record_no_write (l : list ChainQ.t) (d : Db) :
  (∀ k r, (k, r) ∈ Markets d → is_zero (Market.IsVerified r) = false) →
  exec (update (Some l)) d
  = (inr NoPendingRecord, World d [ContractList; DbGet SelectFirstUnverified]).
Proof.
  intros H. apply first_unverified_None in H.
  rewrite exec_update_eq, update_eq.
  unfold select_first_unverified. by rewrite H.
Qed.

Lemma no_pending_record_no_write_witness :
  exec (update (Some [on_chain "42" "T"])) (MkDb [(1, verified "42" "T")] [])
  = (inr NoPendingRecord,
     World (MkDb [(1, verified "42" "T")] [])
           [ContractList; DbGet SelectFirstUnverified]).
Proof.
  apply (no_pending_record_no_write [on_chain "42" "T"]
           (MkDb [(1, verified "42" "T")] [])).
  intros k r Hin. apply list_elem_of_singleton in Hin. by inversion Hin.
Defined.

(** ** One read, one write *)

Lemma update_where_rowid_whole set h m m' :
  update_where_rowid set h m = Some m' → Forall2 (whole_or_none set) m m'.
Proof.
  unfold update_where_rowid. case_match; [done|]. intros [= <-].
  apply Forall2_fmap_r, Forall_Forall2_diag, Forall_forall.
  intros r _. unfold whole_or_none, compose. cbv beta. destruct (rowid_eq r.1 h); auto.
Qed.

Lemma run_update_verified_whole a b c e h d d' :
  run UpdateVerified [a; b; c; e; h] d = Some d' →
  Forall2 (whole_or_none (set_verified (bind a) (bind b) (bind c) (bind e)))
          (Markets d) (Markets d').
Proof.
  cbn. destruct (update_where_rowid _ _ _) as [m|] eqn:Hm; [|done].
  intros [= <-]. by apply update_where_rowid_whole in Hm.
Qed.

(** The log of one call, after the log [t] it started with. *)
Lemma update_trace chain d t :
  ∃ e, trace (update chain (World d t)).2 = t ++ e ∧
       (e = [ContractList] ∨ e = queried ∨ ∃ st params, e = queried ++ [DbRun st params]).
Proof.
  rewrite update_eq. cbv zeta. repeat case_match; cbn [snd trace]; eauto 8.
Qed.

(** C7: a call of [update] issues at most one [db.get] and at most one
    [db.run]; the database after the call is the one before it or the result
    of that one statement; and the match-branch UPDATE, whatever row handle
    it is given, leaves each row either as it was or with its whole SET
    applied (identity, expiration, creator, total and the verified flag
    together) -- no row is left in between. *)
Theorem one_read_one_write_no_partial_state (chain : option (list ChainQ.t)) (d : Db) :
  (reads (trace (exec (update chain) d).2) ≤ 1)%nat ∧
  (writes (trace (exec (update chain) d).2) ≤ 1)%nat ∧
  (db (exec (update chain) d).2 = d ∨
   ∃ st params, DbRun st params ∈ trace (exec (update chain) d).2 ∧
                run st params d = Some (db (exec (update chain) d).2)) ∧
  (∀ p_id p_expiration p_creator p_total p_rowid d',
     run UpdateVerified [p_id; p_expiration; p_creator; p_total; p_rowid] d = Some d' →
     Forall2 (whole_or_none (set_verified (bind p_id) (bind p_expiration)
                                          (bind p_creator) (bind p_total)))
             (Markets d) (Markets d')).
Proof.
  rewrite exec_update_eq.
  destruct (update_trace chain d []) as (e & -> & He).
  repeat split.
  - destruct He as [->|[->|(st & ps & ->)]]; cbn; lia.
  - destruct He as [->|[->|(st & ps & ->)]]; cbn; lia.
  - left. apply (update_db chain (World d [])).
  - intros. by eapply run_update_verified_whole.
Qed.

(** ** Verified records *)

Lemma same_market_refl r : same_market r r.
Proof. by repeat split. Qed.

Lemma same_market_trans r1 r2 r3 :
  same_market r1 r2 → same_market r2 r3 → same_market r1 r3.
Proof. unfold same_market. intuition congruence. Qed.

Lemma next_market_id_db chain d : db (exec (next_market_id chain) d).2 = d.
Proof.
  unfold exec, next_market_id, try_catch. rewrite bind_eq.
  pose proof (update_db chain (World d [])) as Hdb.
  destruct (update chain (World d [])) as [[e|o] w]; cbn in *; [done|].
  rewrite bind_eq, db_get_eq. done.
Qed.

Lemma save_bet_markets stn now req_body d :
  Forall2 same_market (Markets d)
          (Markets (db (exec (save_bet stn now req_body) d).2)).
Proof.
  assert (Hrefl : Forall2 same_market (Markets d) (Markets d))
    by (apply Forall_Forall2_diag, Forall_forall; intros; apply same_market_refl).
  unfold exec, save_bet.
  repeat (case_match; [exact Hrefl|]).
  rewrite bind_eq, db_run_eq. cbn [db trace].
  destruct (run InsertBet _ d) as [d1|] eqn:Hins; cbn [default bool_decide];
    [rewrite bool_decide_eq_true_2 by eauto | rewrite bool_decide_eq_false_2 by (by intros [??])];
    cbn [negb]; [|exact Hrefl].
  assert (Markets d1 = Markets d) as Hd1.
  { cbn in Hins. case_match; [done|]. by injection Hins as <-. }
  rewrite bind_eq, db_run_eq. cbn [db trace run fmap list_fmap].
  cbn [default bool_decide]. rewrite bool_decide_eq_true_2 by eauto.
  cbn [negb]. rewrite ret_eq. cbn [snd db Markets id]. rewrite Hd1.
  apply Forall2_fmap_r, Forall_Forall2_diag, Forall_forall.
  intros r _. unfold compose. cbv beta. destruct (text_eq _ _); [|apply same_market_refl]. by repeat split.
Qed.

Lemma handle_markets stn d rq :
  Forall2 same_market (Markets d) (Markets (handle stn d rq)).
Proof.
  destruct rq as [chain|now req_body]; cbn [handle].
  - rewrite next_market_id_db.
    apply Forall_Forall2_diag, Forall_forall; intros; apply same_market_refl.
  - apply save_bet_markets.
Qed.

Lemma requests_markets stn reqs : ∀ d,
  Forall2 same_market (Markets d) (Markets (foldl (handle stn) d reqs)).
Proof.
  induction reqs as [|rq reqs IH]; intros d; cbn [foldl].
  - apply Forall_Forall2_diag, Forall_forall; intros; apply same_market_refl.
  - pose proof (handle_markets stn d rq) as H1. specialize (IH (handle stn d rq)).
    revert H1 IH. generalize (Markets d), (Markets (handle stn d rq)),
      (Markets (foldl (handle stn) (handle stn d rq) reqs)).
    intros l1 l2 l3 H12. revert l3.
    induction H12; intros l3 H23; inversion H23; subst; constructor;
      eauto using same_market_trans.
Qed.

(** C8: a record with [IsVerified = 1] keeps its flag and its identity
    through every sequence of write requests (only its [totalAmount] can
    move), and in every state so reached a call of [update] neither selects
    it nor changes it. *)
Theorem verified_is_terminal (StringToNumber : jsstring → number)
    (reqs : list request) (d : Db) (k : Z) (r : Market.t) :
  (k, r) ∈ Markets d →
  Market.IsVerified r = SInt 1 →
  ∃ r', (k, r') ∈ Markets (foldl (handle StringToNumber) d reqs) ∧
        Market.IsVerified r' = SInt 1 ∧
        Market.id r' = Market.id r ∧
        ∀ chain,
          first_unverified (Markets (foldl (handle StringToNumber) d reqs)) ≠ Some (k, r') ∧
          (k, r') ∈ Markets (db (exec (update chain)
                                   (foldl (handle StringToNumber) d reqs)).2).
Proof.
  intros Hin Hv.
  pose proof (requests_markets StringToNumber reqs d) as HF.
  apply list_elem_of_lookup in Hin as [i Hi].
  destruct (Forall2_lookup_l _ _ _ _ _ HF Hi) as ([k' r'] & Hi' & Hsame).
  destruct Hsame as (Hk & Hid & _ & _ & _ & _ & _ & Hver). cbn in *. subst k'.
  exists r'. split; [by eapply list_elem_of_lookup_2|].
  split; [congruence|]. split; [done|].
  intros chain. split.
  - intros Hsel. apply first_unverified_Some in Hsel as [_ Hz].
    rewrite Hver, Hv in Hz. done.
  - rewrite exec_update_eq, update_db. by eapply list_elem_of_lookup_2.
Qed.

Lemma verified_is_terminal_witness :
  ∃ r', (1, r') ∈ Markets (foldl (handle (λ _, NaN))
                             (MkDb [(1, verified "42" "T"); (2, pending "5" "U")] [])
                             [NextMarketId (Some [on_chain "42" "T"]);
                              SaveBet 1700000000000
                                {[ "userId" := Str (lit "u"); "marketId" := Str (lit "42");
                                   "amount" := Number (Num 3); "outcome" := Str (lit "yes");
                                   "date" := Str (lit "2026-11-02") ]};
                              NextMarketId None]) ∧
        Market.IsVerified r' = SInt 1 ∧
        Market.id r' = Market.id (verified "42" "T") ∧
        ∀ chain,
          first_unverified (Markets (foldl (handle (λ _, NaN))
                             (MkDb [(1, verified "42" "T"); (2, pending "5" "U")] [])
                             [NextMarketId (Some [on_chain "42" "T"]);
                              SaveBet 1700000000000
                                {[ "userId" := Str (lit "u"); "marketId" := Str (lit "42");
                                   "amount" := Number (Num 3); "outcome" := Str (lit "yes");
                                   "date" := Str (lit "2026-11-02") ]};
                              NextMarketId None])) ≠ Some (1, r') ∧
          (1, r') ∈ Markets (db (exec (update chain)
                             (foldl (handle (λ _, NaN))
                             (MkDb [(1, verified "42" "T"); (2, pending "5" "U")] [])
                             [NextMarketId (Some [on_chain "42" "T"]);
                              SaveBet 1700000000000
                                {[ "userId" := Str (lit "u"); "marketId" := Str (lit "42");
                                   "amount" := Number (Num 3); "outcome" := Str (lit "yes");
                                   "date" := Str (lit "2026-11-02") ]};
                              NextMarketId None])).2).
Proof.
  apply (verified_is_terminal (λ _, NaN)); [|reflexivity].
  apply list_elem_of_here.
Defined.

(** ** Decimal numerals read back *)

Lemma is_digit_char d : 0 <= d <= 9 → is_digit (digit_char d) = true.
Proof. unfold is_digit, digit_char. intros. apply andb_true_iff. lia. Qed.

Lemma scan_digits_snoc s : ∀ acc c,
  forallb is_digit s = true → is_digit c = true →
  scan_digits acc (s ++ [c])
  = Some (default 0 (scan_digits acc s) * 10 + (c - 48)).
Proof.
  induction s as [|x s IH]; intros acc c Hs Hc; cbn.
  - by rewrite Hc.
  - cbn in Hs. apply andb_true_iff in Hs as [Hx Hs]. rewrite Hx. by apply IH.
Qed.

Lemma digits_fuel_spec fuel : ∀ n,
  0 <= n < 2 * 2 ^ Z.of_nat fuel →
  forallb is_digit (digits_fuel fuel n) = true ∧
  scan_digits None (digits_fuel fuel n) = Some n ∧
  ∃ c t, digits_fuel fuel n = c :: t ∧ is_digit c = true.
Proof.
  induction fuel as [|fuel IH]; intros n Hn.
  - change (2 ^ Z.of_nat 0) with 1 in Hn. cbn [digits_fuel].
    assert (Hd : is_digit (digit_char n) = true) by (apply is_digit_char; lia).
    repeat split.
    + cbn. by rewrite Hd.
    + cbn. rewrite Hd. f_equal. unfold digit_char. cbn. lia.
    + eauto.
  - rewrite Nat2Z.inj_succ, Z.pow_succ_r in Hn by lia. cbn [digits_fuel].
    destruct (Z.ltb_spec n 10) as [Hlt|Hge].
    + assert (Hd : is_digit (digit_char n) = true) by (apply is_digit_char; lia).
      repeat split.
      * cbn. by rewrite Hd.
      * cbn. rewrite Hd. f_equal. unfold digit_char. cbn. lia.
      * eauto.
    + assert (Hq : 0 <= n / 10 < 2 * 2 ^ Z.of_nat fuel).
      { split; [apply Z.div_pos; lia|]. apply Z.div_lt_upper_bound; lia. }
      destruct (IH _ Hq) as (Hall & Hscan & c & t & Hhead & Hc).
      assert (Hm : 0 <= n mod 10 < 10) by (apply Z.mod_pos_bound; lia).
      assert (Hd : is_digit (digit_char (n mod 10)) = true)
        by (apply is_digit_char; lia).
      repeat split.
      * rewrite forallb_app, Hall. cbn. by rewrite Hd.
      * rewrite scan_digits_snoc, Hscan by done. cbn [default]. f_equal.
        unfold digit_char, id. pose proof (Z.div_mod n 10). lia.
      * rewrite Hhead. cbn. eauto.
Qed.

Lemma digits_spec n :
  0 <= n →
  scan_digits None (digits n) = Some n ∧
  ∃ c t, digits n = c :: t ∧ is_digit c = true.
Proof.
  intros Hn. unfold digits.
  destruct (digits_fuel_spec (Z.to_nat (Z.log2 n)) n) as (_ & ? & ?); [|done].
  split; [done|]. rewrite Z2Nat.id by apply Z.log2_nonneg.
  destruct (Z.eq_dec n 0) as [->|]; [done|].
  pose proof (Z.log2_spec n). replace (2 * 2 ^ Z.log2 n) with (2 ^ Z.succ (Z.log2 n)).
  - lia.
  - rewrite Z.pow_succ_r by apply Z.log2_nonneg. done.
Qed.

Lemma scan_numeral (space : Z → bool) n :
  0 <= n →
  (∀ c, is_digit c = true → space c = false) →
  scan_signed (drop_while space (decimal n)) = Some n.
Proof.
  intros Hn Hsp. unfold decimal.
  destruct (Z.ltb_spec n 0); [lia|].
  destruct (digits_spec n Hn) as (Hscan & c & t & Hd & Hc).
  rewrite Hd in *. cbn [drop_while]. rewrite (Hsp _ Hc).
  unfold scan_signed.
  unfold is_digit in Hc. apply andb_true_iff in Hc as [H1 H2].
  assert (c ≠ 45 ∧ c ≠ 43) as [??] by lia.
  destruct c as [|p|p]; try done.
  do 6 (destruct p as [p|p|]; try done).
Qed.

Lemma digit_not_js_space c : is_digit c = true → is_js_space c = false.
Proof.
  unfold is_digit, is_js_space. intros H. apply andb_true_iff in H as [??].
  apply orb_false_iff. split.
  - apply bool_decide_eq_false. rewrite !elem_of_cons, elem_of_nil. lia.
  - apply andb_false_iff. lia.
Qed.

Lemma digit_not_sql_space c : is_digit c = true → is_sql_space c = false.
Proof.
  unfold is_digit, is_sql_space. intros H. apply andb_true_iff in H as [??].
  apply bool_decide_eq_false. rewrite !elem_of_cons, elem_of_nil. lia.
Qed.

Lemma parseInt_numeral n : 0 <= n → parseInt (Str (decimal n)) = Num n.
Proof.
  intros Hn. unfold parseInt, parseInt10. cbn [ToString].
  by rewrite (scan_numeral _ n Hn digit_not_js_space).
Qed.

Lemma cast_numeral n :
  0 <= n < 2 ^ 63 → cast_integer (SText (decimal n)) = Some n.
Proof.
  intros Hn. cbn [cast_integer].
  rewrite (scan_numeral _ n) by (lia || apply digit_not_sql_space).
  cbn [default]. unfold int64_clamp, id. f_equal.
  assert (2 ^ 63 = 9223372036854775808) by reflexivity. lia.
Qed.

Lemma truthy_numeral n : 0 <= n → truthy (Str (decimal n)) = true.
Proof.
  intros Hn. unfold decimal. destruct (Z.ltb_spec n 0); [lia|].
  destruct (digits_spec n Hn) as (_ & c & t & -> & _). done.
Qed.

(** ** The next market id *)

(** What the endpoint does after the reconciliation pass returned. *)
Lemma next_market_id_eq chain d :
  exec (next_market_id chain) d =
  match exec (update chain) d with
  | (inr _, w) =>
      (inr (json {[ "nextId" := Str (nextId (select_max_id (db w))) ]}),
       World (db w) (trace w ++ [DbGet SelectMaxId]))
  | (inl _, w) =>
      (inr (Response 500 {[ "error" := Str (lit "Internal server error") ]}), w)
  end.
Proof.
  unfold exec, next_market_id, try_catch. rewrite bind_eq.
  destruct (update chain (World d [])) as [[e|o] w]; [done|].
  by rewrite bind_eq, db_get_eq.
Qed.

Lemma comes_before_max r b :
  is_Some (cast_integer (Market.id r)) → is_Some (cast_integer (Market.id b)) →
  identity_as_integer (if comes_before r b then r else b)
  = Z.max (identity_as_integer b) (identity_as_integer r).
Proof.
  intros [x Hx] [y Hy]. unfold comes_before, identity_as_integer.
  rewrite Hx, Hy. cbn [key_lt default].
  destruct (Z.ltb_spec y x); cbn [orb].
  - rewrite Hx. cbn. lia.
  - destruct (bool_decide (Some x = Some y)) eqn:He; cbn [andb].
    + apply bool_decide_eq_true in He as [= ->].
      destruct (index_lt _ _); rewrite ?Hx, ?Hy; cbn; lia.
    + rewrite Hy. cbn. lia.
Qed.

(** The row that the ordered query returns first holds the maximum. *)
Lemma top_row_max m : ∀ b,
  is_Some (cast_integer (Market.id b)) →
  (∀ k r, (k, r) ∈ m → is_Some (cast_integer (Market.id r))) →
  ∃ b', foldl (λ best r,
                 match best with
                 | Some b => if comes_before r.2 b then Some r.2 else best
                 | None => Some r.2
                 end) (Some b) m = Some b' ∧
        (b' = b ∨ ∃ k, (k, b') ∈ m) ∧
        identity_as_integer b'
        = match max_identity m with
          | Some x => Z.max (identity_as_integer b) x
          | None => identity_as_integer b
          end.
Proof.
  induction m as [|[k r] m IH]; intros b Hb Hm; cbn [foldl max_identity].
  - eauto.
  - assert (Hr : is_Some (cast_integer (Market.id r)))
      by (eapply Hm, list_elem_of_here).
    pose proof (comes_before_max r b Hr Hb) as Hmax. cbn [snd].
    destruct (IH (if comes_before r b then r else b)) as (b' & Hfold & Hin & Hid).
    { by destruct (comes_before r b). }
    { intros k' r' Hin. eapply Hm, list_elem_of_further, Hin. }
    exists b'. split; [by destruct (comes_before r b)|]. split.
    + destruct Hin as [->|[k' Hin]].
      * destruct (comes_before r b); [right; exists k; left | by left].
      * right. exists k'. by right.
    + rewrite Hid, Hmax. destruct (max_identity m); lia.
Qed.

Lemma top_row_numerals m :
  (∀ k r, (k, r) ∈ m → numeral_id r) →
  nextId ((λ r, {[ "id" := to_js (Market.id r) ]}) <$> top_row m) = spec_next_id m.
Proof.
  intros Hm.
  assert (Hsome : ∀ k r, (k, r) ∈ m → is_Some (cast_integer (Market.id r))).
  { intros k r Hin. destruct (Hm _ _ Hin) as (n & Hn & ->).
    rewrite cast_numeral by lia. eauto. }
  unfold top_row, spec_next_id. destruct m as [|[k r] m]; [done|].
  cbn [foldl max_identity snd].
  destruct (top_row_max m r) as (b & -> & Hin & Hid).
  { eapply Hsome, list_elem_of_here. }
  { intros k' r' Hin. eapply Hsome, list_elem_of_further, Hin. }
  rewrite <- Hid. clear Hid.
  assert (numeral_id b) as (n & Hn & Hb).
  { destruct Hin as [->|[k' Hin]].
    - eapply Hm, list_elem_of_here.
    - eapply Hm, list_elem_of_further, Hin. }
  unfold identity_as_integer. rewrite Hb, cast_numeral by lia.
  cbn [fmap option_fmap option_map nextId]. unfold prop.
  rewrite lookup_singleton_eq. cbn [default to_js].
  unfold id. rewrite Hb. cbn [to_js].
  rewrite truthy_numeral, parseInt_numeral by lia. done.
Qed.

(** C9 as stated fails on a relation whose only identity is "abc": as an
    integer it compares as 0, so the claim gives "1", but the endpoint
    answers "NaN". *)
Lemma next_market_id_of_non_numeric_identity :
  let d := MkDb [(1, pending "abc" "T")] [] in
  ∃ w, exec (next_market_id (Some [])) d
       = (inr (json {[ "nextId" := Str (lit "NaN") ]}), w)
       ∧ spec_next_id (Markets (db w)) = lit "1"
       ∧ lit "NaN" ≠ lit "1".
Proof. eexists. split; [vm_compute; reflexivity|]. split; [reflexivity|discriminate]. Qed.

(** C9 (amended): when the reconciliation pass returns and every identity in
    the relation is the decimal numeral of a natural number below
    [2^53 - 1], the endpoint answers 200 with [nextId] the numeral of the
    maximum identity plus one, or "1" when the relation is empty; its log is
    that of the one reconciliation pass followed by the one ordered query. *)
Theorem next_market_id_is_max_plus_one (chain : option (list ChainQ.t))
    (d : Db) (o : outcome) (w : world) :
  exec (update chain) d = (inr o, w) →
  (∀ k r, (k, r) ∈ Markets (db w) → numeral_id r) →
  exec (next_market_id chain) d
  = (inr (Response 200 {[ "nextId" := Str (spec_next_id (Markets (db w))) ]}),
     World (db w) (trace w ++ [DbGet SelectMaxId])).
Proof.
  intros Hu Hm. rewrite next_market_id_eq, Hu.
  unfold select_max_id. by rewrite top_row_numerals.
Qed.

Lemma next_market_id_is_max_plus_one_witness :
  exec (next_market_id (Some [on_chain "7" "Will it hail?"]))
       (MkDb [(1, verified "3" "A"); (2, verified "12" "B"); (3, pending "5" "C")] [])
  = (inr (Response 200 {[ "nextId" := Str (lit "13") ]}),
     World (MkDb [(1, verified "3" "A"); (2, verified "12" "B"); (3, pending "5" "C")] [])
           [ContractList; DbGet SelectFirstUnverified;
            DbRun UpdateId [Str (lit "8"); Undefined]; DbGet SelectMaxId]).
Proof.
  apply (next_market_id_is_max_plus_one (Some [on_chain "7" "Will it hail?"])
           (MkDb [(1, verified "3" "A"); (2, verified "12" "B"); (3, pending "5" "C")] [])
           (Unmatched (lit "8") true)
           (World (MkDb [(1, verified "3" "A"); (2, verified "12" "B"); (3, pending "5" "C")] [])
                  [ContractList; DbGet SelectFirstUnverified;
                   DbRun UpdateId [Str (lit "8"); Undefined]])).
  - vm_compute. reflexivity.
  - intros k r Hin. cbn [db Markets] in Hin.
    repeat (apply elem_of_cons in Hin as [Hin|Hin]; [injection Hin as -> ->|]).
    + exists 3. split; [lia|reflexivity].
    + exists 12. split; [lia|reflexivity].
    + exists 5. split; [lia|reflexivity].
    + by apply elem_of_nil in Hin.
Defined.

(** ** Saving a bet *)

(** C10: a save-bet request that lacks [userId], [marketId], [amount],
    [outcome] or [date], or whose [amount <= 0], is answered with status 400
    and runs no statement: no [Bets] row is inserted and no [totalAmount]
    changes. *)
Theorem save_bet_rejects_invalid (StringToNumber : jsstring → number)
    (now : Z) (req_body : gmap string value) (d : Db) :
  missing req_body "userId" ∨ missing req_body "marketId" ∨
  missing req_body "amount" ∨ missing req_body "outcome" ∨
  missing req_body "date" ∨
  le_zero StringToNumber (prop req_body "amount") = true →
  ∃ r, exec (save_bet StringToNumber now req_body) d = (inr r, World d []) ∧
       status r = 400.
Proof.
  unfold missing, exec, save_bet. intros H.
  destruct (_ || _) eqn:Hmiss; [by eauto|].
  repeat (apply orb_false_iff in Hmiss as [Hmiss ?]).
  destruct H as [H|[H|[H|[H|[H|H]]]]]; try (rewrite H in *; done).
  rewrite H. by eauto.
Qed.

Lemma save_bet_rejects_invalid_witness :
  ∃ r, exec (save_bet (λ _, NaN) 1700000000000
               {[ "userId" := Str (lit "u"); "marketId" := Str (lit "5");
                  "amount" := Number (Num (-3)); "outcome" := Str (lit "yes");
                  "date" := Str (lit "2026-11-02") ]})
            (MkDb [(1, pending "5" "T")] [])
       = (inr r, World (MkDb [(1, pending "5" "T")] []) []) ∧
       status r = 400.
Proof.
  apply (save_bet_rejects_invalid (λ _, NaN)).
  do 5 right. vm_compute. reflexivity.
Defined.

(** * Further properties of the server *)

(** ** Reconciliation *)

(** X1: whatever the ledger returns and whatever the database holds, a call
    of [update] leaves every row of [Markets] and of [Bets] as it was, and
    so does the next-market-id endpoint that runs it. *)
Theorem update_never_changes_the_database (chain : option (list ChainQ.t)) (d : Db) :
  db (exec (update chain) d).2 = d ∧
  db (exec (next_market_id chain) d).2 = d.
Proof.
  split; [apply (update_db chain (World d []))|apply next_market_id_db].
Qed.

Lemma find_first {A} (p : A → bool) (l1 : list A) (x : A) (l2 : list A) :
  (∀ y, y ∈ l1 → p y = false) → p x = true →
  List.find p (l1 ++ x :: l2) = Some x.
Proof.
  intros H1 Hx. induction l1 as [|y l1 IH]; cbn.
  - by rewrite Hx.
  - rewrite (H1 y) by left. apply IH. intros z Hz. apply H1. by right.
Qed.


Lemma first_unverified_first m1 k r m2 :
  (∀ k' r', (k', r') ∈ m1 → is_zero (Market.IsVerified r') = false) →
  is_zero (Market.IsVerified r) = true →
  first_unverified (m1 ++ (k, r) :: m2) = Some (k, r).
Proof.
  intros H1 Hr. unfold first_unverified.
  induction m1 as [|[k' r'] m1 IH]; cbn.
  - rewrite decide_True by done. done.
  - rewrite decide_False by (cbn; rewrite (H1 k' r') by left; done).
    cbn. cbn in IH. destruct (list_find _ (m1 ++ _)) as [[i x]|] eqn:Hf.
    + cbn. cbn in IH. apply IH. intros ???. eapply H1. by right.
    + cbn in IH. exfalso. assert (None = Some (k, r)) by
        (apply IH; intros ???; eapply H1; by right). done.
Qed.

Lemma select_star_title r : prop (Market.select_star r) "title" = to_js (Market.title r).
Proof. reflexivity. Qed.


Lemma strict_eq_BigInt h x : strict_eq h (BigInt x) = bool_decide (h = BigInt x).
Proof. unfold strict_eq. destruct h as [| | |[|]| |]; try done. Qed.


Lemma select_first_unverified_Some d k r :
  first_unverified (Markets d) = Some (k, r) →
  select_first_unverified d = Some (Market.select_star r).
Proof. unfold select_first_unverified. by intros ->. Qed.

Lemma matchedContract_first l1 q l2 h :
  (∀ q', q' ∈ l1 → ChainQ.question_title_hash q' ≠ BigInt h) →
  ChainQ.question_title_hash q = BigInt h →
  matchedContract (l1 ++ q :: l2) h = Some q.
Proof.
  intros H1 Hq. apply find_first.
  - intros q' Hin. rewrite strict_eq_BigInt. apply bool_decide_eq_false_2. by apply H1.
  - rewrite strict_eq_BigInt. by apply bool_decide_eq_true_2.
Qed.


(** X2: [update] works on the first unverified row in table order, and among
    the ledger entries that carry the fingerprint of its title the first in
    snapshot order decides: the call reports [Verified] with that entry's
    id, whatever follows it in the snapshot. *)
Theorem first_pending_row_first_matching_entry
    (m1 : list (Z * Market.t)) (k : Z) (r : Market.t) (m2 : list (Z * Market.t))
    (bets : list (Z * Bet.t)) (l1 : list ChainQ.t) (q : ChainQ.t) (l2 : list ChainQ.t) :
  (∀ k' r', (k', r') ∈ m1 → is_zero (Market.IsVerified r') = false) →
  is_zero (Market.IsVerified r) = true →
  (∀ q', q' ∈ l1 → ChainQ.question_title_hash q' ≠ BigInt (titleHash r)) →
  ChainQ.question_title_hash q = BigInt (titleHash r) →
  ChainQ.id q ≠ Undefined → ChainQ.id q ≠ Null →
  (exec (update (Some (l1 ++ q :: l2))) (MkDb (m1 ++ (k, r) :: m2) bets)).1
  = inr (Verified (ToString (ChainQ.id q))).
Proof.
  intros Hm1 Hr Hl1 Hq Hu Hn.
  rewrite exec_update_eq, update_eq.
  rewrite (select_first_unverified_Some _ k r) by (by apply first_unverified_first).
  rewrite select_star_title. fold (titleHash r).
  rewrite matchedContract_first by done.
  rewrite bool_decide_eq_false_2 by (by intros [?|?]). done.
Qed.

Lemma first_pending_row_first_matching_entry_witness :
  (exec (update (Some ([on_chain "6" "Will it snow?"]
                       ++ on_chain "42" "T" :: [on_chain "43" "T"])))
        (MkDb ([(1, verified "3" "A")] ++ (2, pending "1" "T") :: [(3, pending "2" "U")]) [])).1
  = inr (Verified (ToString (ChainQ.id (on_chain "42" "T")))).
Proof.
  apply (first_pending_row_first_matching_entry
           [(1, verified "3" "A")] 2 (pending "1" "T") [(3, pending "2" "U")] []
           [on_chain "6" "Will it snow?"] (on_chain "42" "T") [on_chain "43" "T"]).
  - intros k' r' Hin. apply list_elem_of_singleton in Hin. by inversion Hin.
  - reflexivity.
  - intros q' Hin. apply list_elem_of_singleton in Hin. subst q'.
    vm_compute. discriminate.
  - vm_compute. reflexivity.
  - discriminate.
  - discriminate.
Defined.

(** X3: when the matching ledger entry has no id ([undefined] or [null]),
    [update] throws a TypeError after its query and before any [db.run]; the
    database is as before. *)
Theorem matching_entry_without_id_throws
    (d : Db) (k : Z) (r : Market.t) (l1 : list ChainQ.t) (q : ChainQ.t) (l2 : list ChainQ.t) :
  first_unverified (Markets d) = Some (k, r) →
  (∀ q', q' ∈ l1 → ChainQ.question_title_hash q' ≠ BigInt (titleHash r)) →
  ChainQ.question_title_hash q = BigInt (titleHash r) →
  ChainQ.id q = Undefined ∨ ChainQ.id q = Null →
  exec (update (Some (l1 ++ q :: l2))) d
  = (inl TypeError, World d [ContractList; DbGet SelectFirstUnverified]).
Proof.
  intros Hsel Hl1 Hq Hid.
  rewrite exec_update_eq, update_eq.
  rewrite (select_first_unverified_Some _ k r) by done.
  rewrite select_star_title. fold (titleHash r).
  rewrite matchedContract_first by done.
  by rewrite bool_decide_eq_true_2.
Qed.

Lemma matching_entry_without_id_throws_witness :
  exec (update (Some ([] ++ ChainQ.Question Undefined (BigInt (titleHash (pending "1" "T")))
                                  Null Null Null :: [])))
       (MkDb [(1, pending "1" "T")] [])
  = (inl TypeError,
     World (MkDb [(1, pending "1" "T")] []) [ContractList; DbGet SelectFirstUnverified]).
Proof.
  apply (matching_entry_without_id_throws (MkDb [(1, pending "1" "T")] []) 1
           (pending "1" "T") []
           (ChainQ.Question Undefined (BigInt (titleHash (pending "1" "T"))) Null Null Null)
           []).
  - reflexivity.
  - intros q' Hin. by apply elem_of_nil in Hin.
  - reflexivity.
  - by left.
Defined.



(** X5: the suggested identity is read off the last entry of the snapshot
    alone: when that entry's id is the natural number [n] (a BigInt, a
    number, or its decimal text), the suggestion is the numeral of [n + 1],
    whatever the ids of the earlier entries. *)
Theorem suggested_identity_is_last_id_plus_one
    (l : list ChainQ.t) (q : ChainQ.t) (n : Z) :
  0 <= n < 2 ^ 53 - 1 →
  ChainQ.id q = BigInt n ∨ ChainQ.id q = Number (Num n) ∨ ChainQ.id q = Str (decimal n) →
  suggestedId (l ++ [q]) = decimal (n + 1).
Proof.
  intros Hn Hid. unfold suggestedId, lastId. rewrite last_snoc.
  assert (Hp : parseInt (ChainQ.id q) = Num n).
  { destruct Hid as [-> | [-> | ->]]; apply (parseInt_numeral n); lia. }
  by rewrite Hp.
Qed.

Lemma suggested_identity_is_last_id_plus_one_witness :
  suggestedId ([on_chain "90" "A"; on_chain "3" "B"] ++ [on_chain "7" "C"]) = decimal (7 + 1).
Proof.
  apply (suggested_identity_is_last_id_plus_one
           [on_chain "90" "A"; on_chain "3" "B"] (on_chain "7" "C") 7).
  - lia.
  - right. right. reflexivity.
Defined.

(** ** The next market id *)

(** X6: the next-market-id endpoint answers 500 exactly when the
    reconciliation pass throws (the ledger fetch fails, or a matching entry
    has no id); it then runs no further query.  Otherwise it answers 200. *)
Theorem next_market_id_500_iff_update_throws (chain : option (list ChainQ.t)) (d : Db) :
  match exec (update chain) d with
  | (inl _, w) =>
      exec (next_market_id chain) d
      = (inr (Response 500 {[ "error" := Str (lit "Internal server error") ]}), w)
  | (inr _, w) =>
      ∃ id, exec (next_market_id chain) d
            = (inr (Response 200 {[ "nextId" := Str id ]}),
               World (db w) (trace w ++ [DbGet SelectMaxId]))
  end.
Proof.
  rewrite next_market_id_eq. destruct (exec (update chain) d) as [[e|o] w]; eauto.
Qed.

(** X7: the endpoint does not reserve the id it hands out: a second call
    with the same ledger snapshot finds the same database and gives the same
    answer. *)
Theorem next_market_id_twice (chain : option (list ChainQ.t)) (d : Db) :
  exec (next_market_id chain) (db (exec (next_market_id chain) d).2)
  = exec (next_market_id chain) d.
Proof. by rewrite next_market_id_db. Qed.

(** ** Saving a bet *)

Lemma text_eq_SText col m : text_eq col (SText m) = bool_decide (col = SText m).
Proof.
  destruct col; cbn; try done.
  destruct (decide (s = m)) as [->|Hne].
  - by rewrite !bool_decide_eq_true_2.
  - rewrite !bool_decide_eq_false_2; [done| |]; congruence.
Qed.

Lemma bind_integer a :
  integer_affinity (if is_int32 a then SInt a else SReal a) = SInt a.
Proof. by destruct (is_int32 a). Qed.

Lemma add_total_bind a r :
  add_total (if is_int32 a then SInt a else SReal a) r = add_total (SInt a) r.
Proof. unfold add_total, Sql.add. by destruct (is_int32 a). Qed.

Lemma truthy_Str s : truthy (Str s) = negb (bool_decide (s = [])).
Proof. reflexivity. Qed.

(** What save-bet does with a body of strings and an integer amount. *)
Lemma save_bet_typed stn now u m a o dt d :
  exec (save_bet stn now (bet_body u m a o dt)) d =
  if bool_decide (u = [] ∨ m = [] ∨ a = 0 ∨ o = [] ∨ dt = [])
  then (inr (Response 400 {[ "error" := Str (lit "Missing required bet details") ]}),
        World d [])
  else if a <=? 0
  then (inr (Response 400 {[ "error" := Str (lit "Bet amount must be greater than 0") ]}),
        World d [])
  else if bet_stored (decimal now) d
  then (inr (Response 500 {[ "error" := Str (lit "Database error") ]}),
        World d [DbRun InsertBet (bet_params now u m a o dt)])
  else (inr (json {[ "success" := Bool true;
                     "message" := Str (lit "Bet saved and totalAmount updated successfully") ]}),
        World (MkDb (stake m a <$> Markets d)
                    (Bets d ++ [(next_rowid (Bets d), bet_row now u m a o dt)]))
              [DbRun InsertBet (bet_params now u m a o dt);
               DbRun UpdateTotal [Number (Num a); Str m]]).
Proof.
  unfold exec, save_bet.
  change (prop (bet_body u m a o dt) "userId") with (Str u).
  change (prop (bet_body u m a o dt) "marketId") with (Str m).
  change (prop (bet_body u m a o dt) "amount") with (Number (Num a)).
  change (prop (bet_body u m a o dt) "outcome") with (Str o).
  change (prop (bet_body u m a o dt) "date") with (Str dt).
  rewrite !truthy_Str. cbn [truthy le_zero number_toString]. rewrite !negb_involutive.
  destruct (bool_decide (u = [] ∨ _)) eqn:Hmiss.
  - apply bool_decide_eq_true in Hmiss.
    replace (_ || _) with true; [done|]. symmetry.
    destruct Hmiss as [-> | [-> | [-> | [-> | ->]]]]; cbn; rewrite ?orb_true_r; done.
  - apply bool_decide_eq_false in Hmiss.
    replace (_ || _) with false.
    2:{ symmetry. rewrite !orb_false_iff.
        repeat split; try (apply bool_decide_eq_false; tauto).
        destruct (Z.eqb_spec a 0); [tauto|done]. }
    destruct (a <=? 0); [done|].
    rewrite bind_eq, db_run_eq. cbn [db trace].
    unfold bet_stored, bet_params.
    cbn [run fmap list_fmap bind text_affinity].
    rewrite (bool_decide_eq_true_2 (SText (decimal now) ≠ SNull)) by done. cbn [andb].
    rewrite bind_integer.
    destruct (existsb _ (Bets d)); cbn [default].
    + by rewrite bool_decide_eq_false_2 by (by intros [??]).
    + rewrite bool_decide_eq_true_2 by eauto. cbn [negb].
      rewrite bind_eq, db_run_eq. cbn [db trace run fmap list_fmap default Markets Bets].
      rewrite bool_decide_eq_true_2 by eauto. cbn [negb]. rewrite ret_eq.
      unfold id, bet_row. cbn [bind text_affinity].
      do 3 f_equal.
      apply list_fmap_ext. intros i [k r] _. unfold stake.
      by rewrite add_total_bind, text_eq_SText.
Qed.

Lemma bool_decide_nonempty_fields (u m : jsstring) (a : Z) (o dt : jsstring) :
  u ≠ [] → m ≠ [] → 0 < a → o ≠ [] → dt ≠ [] →
  bool_decide (u = [] ∨ m = [] ∨ a = 0 ∨ o = [] ∨ dt = []) = false ∧ (a <=? 0) = false.
Proof.
  intros. split; [apply bool_decide_eq_false_2; intros [?|[?|[?|[?|?]]]]; done || lia|].
  apply Z.leb_gt. lia.
Qed.

Lemma stake_same_market m a r : same_market r (stake m a r).
Proof.
  unfold stake. destruct (bool_decide _); [|apply same_market_refl]. by repeat split.
Qed.



(** X9: the key of a bet is the millisecond of its arrival: a valid save-bet
    request arriving at a millisecond for which a bet is already stored is
    answered 500; the INSERT is refused, the UPDATE of the total is not run,
    and the database is as before. *)
Theorem save_bet_same_millisecond_refused (StringToNumber : jsstring → number)
    (now : Z) (u m : jsstring) (a : Z) (o dt : jsstring) (d : Db) :
  u ≠ [] → m ≠ [] → 0 < a → o ≠ [] → dt ≠ [] →
  bet_stored (decimal now) d = true →
  exec (save_bet StringToNumber now (bet_body u m a o dt)) d
  = (inr (Response 500 {[ "error" := Str (lit "Database error") ]}),
     World d [DbRun InsertBet (bet_params now u m a o dt)]).
Proof.
  intros Hu Hm Ha Ho Hdt Hstored.
  destruct (bool_decide_nonempty_fields u m a o dt) as [H1 H2]; try done.
  by rewrite save_bet_typed, H1, H2, Hstored.
Qed.

Lemma save_bet_same_millisecond_refused_witness :
  exec (save_bet (λ _, NaN) 1700000000000
          (bet_body (lit "v") (lit "6") 9 (lit "no") (lit "2026-11-02")))
       (db (exec (save_bet (λ _, NaN) 1700000000000
                    (bet_body (lit "u") (lit "5") 3 (lit "yes") (lit "2026-11-02")))
                 (MkDb [(1, pending "5" "T")] [])).2)
  = (inr (Response 500 {[ "error" := Str (lit "Database error") ]}),
     World (db (exec (save_bet (λ _, NaN) 1700000000000
                        (bet_body (lit "u") (lit "5") 3 (lit "yes") (lit "2026-11-02")))
                     (MkDb [(1, pending "5" "T")] [])).2)
           [DbRun InsertBet (bet_params 1700000000000 (lit "v") (lit "6") 9
                               (lit "no") (lit "2026-11-02"))]).
Proof.
  apply (save_bet_same_millisecond_refused (λ _, NaN) 1700000000000
           (lit "v") (lit "6") 9 (lit "no") (lit "2026-11-02"));
    try discriminate; try lia. vm_compute. reflexivity.
Defined.

(** X10: save-bet does not look the market up: when no market has the
    request's [marketId], a valid request is still answered with success and
    its bet is stored, while [Markets] is left exactly as it was. *)
Theorem save_bet_on_unknown_market (StringToNumber : jsstring → number)
    (now : Z) (u m : jsstring) (a : Z) (o dt : jsstring) (d : Db) :
  u ≠ [] → m ≠ [] → 0 < a → o ≠ [] → dt ≠ [] →
  bet_stored (decimal now) d = false →
  (∀ k r, (k, r) ∈ Markets d → Market.id r ≠ SText m) →
  exec (save_bet StringToNumber now (bet_body u m a o dt)) d
  = (inr (json {[ "success" := Bool true;
                  "message" := Str (lit "Bet saved and totalAmount updated successfully") ]}),
     World (MkDb (Markets d) (Bets d ++ [(next_rowid (Bets d), bet_row now u m a o dt)]))
           [DbRun InsertBet (bet_params now u m a o dt);
            DbRun UpdateTotal [Number (Num a); Str m]]).
Proof.
  intros Hu Hm Ha Ho Hdt Hfresh Hnone.
  destruct (bool_decide_nonempty_fields u m a o dt) as [H1 H2]; try done.
  rewrite save_bet_typed, H1, H2, Hfresh. do 3 f_equal.
  rewrite <- (list_fmap_id (Markets d)) at 2.
  apply list_fmap_ext. intros i [k r] Hi. unfold stake.
  rewrite bool_decide_eq_false_2; [done|].
  eapply Hnone, list_elem_of_lookup_2, Hi.
Qed.

Lemma save_bet_on_unknown_market_witness :
  exec (save_bet (λ _, NaN) 1700000000000
          (bet_body (lit "u") (lit "77") 3 (lit "yes") (lit "2026-11-02")))
       (MkDb [(1, pending "5" "T")] [])
  = (inr (json {[ "success" := Bool true;
                  "message" := Str (lit "Bet saved and totalAmount updated successfully") ]}),
     World (MkDb (Markets (MkDb [(1, pending "5" "T")] []))
                 (Bets (MkDb [(1, pending "5" "T")] [])
                  ++ [(next_rowid (Bets (MkDb [(1, pending "5" "T")] [])),
                       bet_row 1700000000000 (lit "u") (lit "77") 3 (lit "yes")
                               (lit "2026-11-02"))]))
           [DbRun InsertBet (bet_params 1700000000000 (lit "u") (lit "77") 3
                               (lit "yes") (lit "2026-11-02"));
            DbRun UpdateTotal [Number (Num 3); Str (lit "77")]]).
Proof.
  apply (save_bet_on_unknown_market (λ _, NaN) 1700000000000
           (lit "u") (lit "77") 3 (lit "yes") (lit "2026-11-02")
           (MkDb [(1, pending "5" "T")] []));
    try discriminate; try lia; try reflexivity.
  intros k r Hin. apply list_elem_of_singleton in Hin. inversion Hin. discriminate.
Defined.



(** ** Saving a market *)

Lemma find_text_eq_None (m : list (Z * Market.t)) (p : sqlval) :
  List.find (λ r, text_eq (Market.id r.2) p) m = None ↔
  ∀ r, r ∈ m → text_eq (Market.id r.2) p = false.
Proof.
  induction m as [|x m IH]; cbn.
  - split; [intros _ r Hr; by apply elem_of_nil in Hr|done].
  - destruct (text_eq (Market.id x.2) p) eqn:Hx.
    + split; [done|]. intros H. specialize (H x). rewrite Hx in H.
      by discriminate H; left.
    + rewrite IH. split.
      * intros H r Hr. apply elem_of_cons in Hr as [->|Hr]; auto.
      * intros H r Hr. apply H. by right.
Qed.

Lemma elem_of_text_identities s d :
  s ∈ text_identities d ↔ ∃ r, r ∈ Markets d ∧ Market.id r.2 = SText s.
Proof.
  unfold text_identities. rewrite list_elem_of_omap. split.
  - intros (r & Hr & Hid). exists r. split; [done|].
    unfold id_text in Hid. destruct (Market.id r.2); naive_solver.
  - intros (r & Hr & Hid). exists r. split; [done|]. unfold id_text. by rewrite Hid.
Qed.

Lemma find_id_None (m : jsstring) (d : Db) :
  m ∉ text_identities d →
  List.find (λ r, text_eq (Market.id r.2) (SText m)) (Markets d) = None.
Proof.
  intros Hnot. apply find_text_eq_None. intros r Hr.
  rewrite text_eq_SText. apply bool_decide_eq_false_2. intros Hid.
  apply Hnot, elem_of_text_identities. eauto.
Qed.

Lemma find_id_Some (m : jsstring) (d : Db) :
  m ∈ text_identities d →
  is_Some (List.find (λ r, text_eq (Market.id r.2) (SText m)) (Markets d)).
Proof.
  intros Hin. destruct (List.find _ _) eqn:Hf; [eauto|].
  apply elem_of_text_identities in Hin as (r & Hr & Hid).
  rewrite find_text_eq_None in Hf. specialize (Hf r Hr).
  rewrite text_eq_SText, bool_decide_eq_true_2 in Hf; done.
Qed.

Lemma existsb_id_false (m : jsstring) (d : Db) :
  m ∉ text_identities d →
  existsb (λ r, bool_decide (Market.id r.2 = SText m)) (Markets d) = false.
Proof.
  intros Hnot. apply not_true_is_false. intros Hex.
  apply existsb_exists in Hex as (r & Hr & Hd).
  apply bool_decide_eq_true in Hd. apply Hnot, elem_of_text_identities.
  exists r. split; [by apply list_elem_of_In|done].
Qed.

(** What save-market does with a body of strings. *)
Lemma save_market_typed i t e c d :
  save_market (market_body i t e c) d =
  if bool_decide (i = [] ∨ t = [] ∨ e = [] ∨ c = [])
  then (missing_fields_reply (market_body i t e c), d)
  else if bool_decide (i ∈ text_identities d)
  then (error_reply 400 "Market already exists. Only totalAmount can be updated.", d)
  else (success_reply "Market saved successfully",
        MkDb (Markets d ++ [(next_rowid (Markets d), market_row i t e c)]) (Bets d)).
Proof.
  unfold save_market, missing_fields_reply.
  change (prop (market_body i t e c) "id") with (Str i).
  change (prop (market_body i t e c) "title") with (Str t).
  change (prop (market_body i t e c) "description") with Undefined.
  change (prop (market_body i t e c) "expiration") with (Str e).
  change (prop (market_body i t e c) "creator") with (Str c).
  rewrite !truthy_Str, !negb_involutive.
  destruct (bool_decide (i = [] ∨ _)) eqn:Hmiss.
  - apply bool_decide_eq_true in Hmiss.
    replace (_ || _) with true; [done|]. symmetry.
    destruct Hmiss as [-> | [-> | [-> | ->]]]; cbn; rewrite ?orb_true_r; done.
  - apply bool_decide_eq_false in Hmiss.
    replace (_ || _) with false.
    2:{ symmetry. rewrite !orb_false_iff.
        repeat split; apply bool_decide_eq_false; tauto. }
    unfold select_id_where_id. cbn [bind].
    destruct (decide (i ∈ text_identities d)) as [Hin|Hnot].
    + rewrite (bool_decide_eq_true_2 _ Hin).
      by destruct (find_id_Some i d Hin) as [r ->].
    + rewrite (bool_decide_eq_false_2 _ Hnot), find_id_None by done.
      cbn [fmap option_fmap option_map insert_market list_fmap bind text_affinity].
      rewrite (bool_decide_eq_true_2 (SText i ≠ SNull)) by done.
      by rewrite existsb_id_false by done.
Qed.

(** X12: save-market treats a falsy [id], [title], [expiration] or [creator]
    (absent, [null], empty, zero, [false]) as missing: it answers 400,
    echoing the four fields, and leaves the database as it was.  The
    description is not required. *)
Theorem save_market_rejects_missing_fields (req_body : gmap string value) (d : Db) :
  truthy (prop req_body "id") = false ∨ truthy (prop req_body "title") = false ∨
  truthy (prop req_body "expiration") = false ∨ truthy (prop req_body "creator") = false →
  save_market req_body d = (missing_fields_reply req_body, d).
Proof.
  intros H. unfold save_market, missing_fields_reply.
  replace (_ || _) with true; [done|]. symmetry.
  destruct H as [-> | [-> | [-> | ->]]]; cbn; rewrite ?orb_true_r; done.
Qed.

Lemma save_market_rejects_missing_fields_witness :
  save_market {[ "id" := Number (Num 0); "title" := Str (lit "T");
                 "expiration" := Str (lit "2026-12-31"); "creator" := Str (lit "0xabc") ]}
              (MkDb [(1, pending "5" "T")] [])
  = (missing_fields_reply
       {[ "id" := Number (Num 0); "title" := Str (lit "T");
          "expiration" := Str (lit "2026-12-31"); "creator" := Str (lit "0xabc") ]},
     MkDb [(1, pending "5" "T")] []).
Proof.
  apply (save_market_rejects_missing_fields
           {[ "id" := Number (Num 0); "title" := Str (lit "T");
              "expiration" := Str (lit "2026-12-31"); "creator" := Str (lit "0xabc") ]}
           (MkDb [(1, pending "5" "T")] [])).
  left. reflexivity.
Defined.

(** X13: a save-market request whose id is already the identity of a stored
    market is answered 400 and changes nothing: the stored market keeps its
    title, expiration, creator and total. *)
Theorem save_market_refuses_existing_id (i t e c : jsstring) (d : Db) :
  i ≠ [] → t ≠ [] → e ≠ [] → c ≠ [] →
  i ∈ text_identities d →
  save_market (market_body i t e c) d
  = (error_reply 400 "Market already exists. Only totalAmount can be updated.", d).
Proof.
  intros Hi Ht He Hc Hin. rewrite save_market_typed.
  rewrite bool_decide_eq_false_2 by (intros [?|[?|[?|?]]]; done).
  by rewrite bool_decide_eq_true_2.
Qed.

Lemma save_market_refuses_existing_id_witness :
  save_market (market_body (lit "5") (lit "Other") (lit "2027-01-01") (lit "0xdef"))
              (MkDb [(1, pending "5" "T")] [])
  = (error_reply 400 "Market already exists. Only totalAmount can be updated.",
     MkDb [(1, pending "5" "T")] []).
Proof.
  apply (save_market_refuses_existing_id (lit "5") (lit "Other") (lit "2027-01-01")
           (lit "0xdef") (MkDb [(1, pending "5" "T")] []));
    try discriminate.
  apply list_elem_of_here.
Defined.

Lemma first_unverified_app m x :
  first_unverified (m ++ [x]) =
  match first_unverified m with
  | Some y => Some y
  | None => if is_zero (Market.IsVerified x.2) then Some x else None
  end.
Proof.
  destruct (first_unverified m) as [[k r]|] eqn:Hm.
  - unfold first_unverified in *.
    apply fmap_Some in Hm as [[j y] [Hf Hy]]. cbn in Hy. subst y.
    by rewrite (list_find_app_l _ _ _ _ _ Hf).
  - pose proof Hm as Hnone. rewrite first_unverified_None in Hnone.
    destruct (is_zero (Market.IsVerified x.2)) eqn:Hx.
    + destruct x as [k r]. apply (first_unverified_first m k r []); [done|done].
    + apply first_unverified_None. intros k r Hin.
      apply elem_of_app in Hin as [Hin|Hin]; [by eapply Hnone|].
      apply list_elem_of_singleton in Hin. by subst x.
Qed.

(** X14: a save-market request with non-empty string fields and an id that
    no stored market has is answered with success; it appends one row, with
    the next rowid, total 0 and unverified, and leaves every other row and
    every bet as it was.  The new market is pending: [update] will work on
    it once no older market is unverified. *)
Theorem save_market_appends_pending_market (i t e c : jsstring) (d : Db) :
  i ≠ [] → t ≠ [] → e ≠ [] → c ≠ [] →
  i ∉ text_identities d →
  save_market (market_body i t e c) d
  = (success_reply "Market saved successfully",
     MkDb (Markets d ++ [(next_rowid (Markets d), market_row i t e c)]) (Bets d))
  ∧ first_unverified (Markets (save_market (market_body i t e c) d).2)
    = match first_unverified (Markets d) with
      | Some older => Some older
      | None => Some (next_rowid (Markets d), market_row i t e c)
      end.
Proof.
  intros Hi Ht He Hc Hnot. rewrite save_market_typed.
  rewrite bool_decide_eq_false_2 by (intros [?|[?|[?|?]]]; done).
  rewrite bool_decide_eq_false_2 by done. split; [done|].
  cbn [snd Markets]. by rewrite first_unverified_app.
Qed.

Lemma save_market_appends_pending_market_witness :
  save_market (market_body (lit "6") (lit "U") (lit "2027-01-01") (lit "0xdef"))
              (MkDb [(4, verified "5" "T")] [])
  = (success_reply "Market saved successfully",
     MkDb (Markets (MkDb [(4, verified "5" "T")] [])
           ++ [(next_rowid (Markets (MkDb [(4, verified "5" "T")] [])),
                market_row (lit "6") (lit "U") (lit "2027-01-01") (lit "0xdef"))])
          (Bets (MkDb [(4, verified "5" "T")] [])))
  ∧ first_unverified
      (Markets (save_market (market_body (lit "6") (lit "U") (lit "2027-01-01") (lit "0xdef"))
                            (MkDb [(4, verified "5" "T")] [])).2)
    = match first_unverified (Markets (MkDb [(4, verified "5" "T")] [])) with
      | Some older => Some older
      | None => Some (next_rowid (Markets (MkDb [(4, verified "5" "T")] [])),
                      market_row (lit "6") (lit "U") (lit "2027-01-01") (lit "0xdef"))
      end.
Proof.
  apply (save_market_appends_pending_market (lit "6") (lit "U") (lit "2027-01-01")
           (lit "0xdef") (MkDb [(4, verified "5" "T")] []));
    try discriminate.
  intros Hin. apply list_elem_of_singleton in Hin. discriminate.
Defined.

Lemma text_affinity_cases p : text_affinity p = SNull ∨ ∃ k, text_affinity p = SText k.
Proof. destruct p; cbn; eauto. Qed.

Lemma insert_market_after_check (id title description expiration creator total : value) d :
  select_id_where_id id d = None →
  is_Some (insert_market [id; title; description; expiration; creator; total] d).
Proof.
  unfold select_id_where_id, insert_market. intros Hsel.
  apply fmap_None in Hsel. rewrite find_text_eq_None in Hsel. cbn [fmap list_fmap].
  destruct (_ && _) eqn:Hdup; [|by eauto]. exfalso.
  apply andb_true_iff in Hdup as [Hnn Hex].
  apply bool_decide_eq_true in Hnn.
  apply existsb_exists in Hex as (r & Hr & Hd). apply bool_decide_eq_true in Hd.
  apply list_elem_of_In in Hr. specialize (Hsel r Hr).
  unfold text_eq in Hsel. rewrite Hd in Hsel.
  destruct (text_affinity_cases (bind id)) as [Hk|[k Hk]]; [done|].
  rewrite Hk in Hsel.
  by rewrite bool_decide_eq_true_2 in Hsel.
Qed.

(** X15: save-market answers 200 or 400, never 500: once its SELECT has
    found no market with the id, the INSERT cannot fail on the primary key.
    The database changes only with a 200. *)
Theorem save_market_never_fails_on_the_key (req_body : gmap string value) (d : Db) :
  (code (save_market req_body d).1 = 200) ∨
  (code (save_market req_body d).1 = 400 ∧ (save_market req_body d).2 = d).
Proof.
  unfold save_market. destruct (_ || _); [by right|].
  destruct (select_id_where_id _ d) eqn:Hsel; [by right|].
  destruct (insert_market_after_check (prop req_body "id") (prop req_body "title")
              (prop req_body "description") (prop req_body "expiration")
              (prop req_body "creator") (Number (Num 0)) d Hsel) as [d' ->].
  by left.
Qed.

(** ** The server over time *)

Lemma save_market_shape req_body d :
  (save_market req_body d).2 = d ∨
  ∃ row, (save_market req_body d).2
         = MkDb (Markets d ++ [(next_rowid (Markets d), row)]) (Bets d)
         ∧ Market.IsVerified row = SInt 0
         ∧ ∀ k, Market.id row = SText k → k ∉ text_identities d.
Proof.
  unfold save_market. destruct (_ || _); [by left|].
  destruct (select_id_where_id _ d) eqn:Hsel; [by left|].
  unfold insert_market. cbn [fmap list_fmap].
  destruct (_ && _); [by left|]. right. eexists. split; [done|]. split; [done|].
  cbn. intros k Hk Hin.
  unfold select_id_where_id in Hsel. apply fmap_None in Hsel.
  rewrite find_text_eq_None in Hsel.
  apply elem_of_text_identities in Hin as (r & Hr & Hid).
  specialize (Hsel r Hr). unfold text_eq in Hsel. rewrite Hid, Hk in Hsel.
  by rewrite bool_decide_eq_true_2 in Hsel.
Qed.

Lemma save_bet_bets stn now req_body d :
  Bets d `prefix_of` Bets (db (exec (save_bet stn now req_body) d).2).
Proof.
  unfold exec, save_bet.
  repeat (case_match; [done|]).
  rewrite bind_eq, db_run_eq. cbn [db trace].
  destruct (run InsertBet _ d) as [d1|] eqn:Hins; cbn [default bool_decide];
    [rewrite bool_decide_eq_true_2 by eauto | rewrite bool_decide_eq_false_2 by (by intros [??])];
    cbn [negb]; [|done].
  assert (Bets d `prefix_of` Bets d1) as Hd1.
  { cbn in Hins. case_match; [done|]. injection Hins as <-. cbn. by apply prefix_app_r. }
  rewrite bind_eq, db_run_eq. cbn [db trace run fmap list_fmap].
  cbn [default bool_decide]. rewrite bool_decide_eq_true_2 by eauto.
  cbn [negb]. rewrite ret_eq. cbn [snd db Bets id]. done.
Qed.

Lemma Forall2_same_market_refl m : Forall2 same_market m m.
Proof. apply Forall_Forall2_diag, Forall_forall. intros. apply same_market_refl. Qed.

Lemma Forall2_same_market_trans m1 m2 m3 :
  Forall2 same_market m1 m2 → Forall2 same_market m2 m3 → Forall2 same_market m1 m3.
Proof.
  intros H12. revert m3.
  induction H12; intros m3 H23; inversion H23; subst; constructor;
    eauto using same_market_trans.
Qed.

Lemma same_market_unverified m m' :
  Forall2 same_market m m' →
  Forall (λ r, Market.IsVerified r.2 = SInt 0) m →
  Forall (λ r, Market.IsVerified r.2 = SInt 0) m'.
Proof.
  induction 1 as [|r r' m m' Hs _ IH]; intros Hm; [done|].
  inversion Hm; subst. constructor; [|by apply IH].
  destruct Hs as (_ & _ & _ & _ & _ & _ & _ & Hv). congruence.
Qed.

Lemma same_market_id_text m m' :
  Forall2 same_market m m' → omap id_text m = omap id_text m'.
Proof.
  induction 1 as [|r r' m m' Hs _ IH]; [done|]. cbn.
  destruct Hs as (_ & Hid & _).
  assert (Ht : id_text r = id_text r') by (unfold id_text; by rewrite Hid).
  by rewrite Ht, IH.
Qed.

(** One call keeps the stored bets as a prefix, keeps every market row but
    for its total, and adds only unverified rows with fresh identities. *)
Lemma step_shape stn d c :
  Bets d `prefix_of` Bets (step stn d c) ∧
  ∃ kept added,
    Markets (step stn d c) = kept ++ added ∧
    Forall2 same_market (Markets d) kept ∧
    Forall (λ r, Market.IsVerified r.2 = SInt 0) added ∧
    (NoDup (text_identities d) → NoDup (text_identities (step stn d c))).
Proof.
  destruct c as [req_body|now req_body|chain]; cbn [step].
  - destruct (save_market_shape req_body d) as [->|(row & -> & Hv & Hfresh)].
    + split; [done|]. exists (Markets d), []. rewrite app_nil_r.
      eauto using Forall2_same_market_refl.
    + split; [done|]. eexists (Markets d), [_]. cbn [Markets].
      split; [done|]. split; [apply Forall2_same_market_refl|].
      split; [by repeat constructor|].
      intros Hnd. unfold text_identities. cbn [Markets]. rewrite omap_app.
      cbn. unfold id_text at 2. cbn.
      destruct (Market.id row) eqn:Hid; rewrite ?app_nil_r; try done.
      apply NoDup_app. split; [done|]. split; [|apply NoDup_singleton].
      intros x Hx Hx'. apply list_elem_of_singleton in Hx'. subst x.
      by eapply Hfresh.
  - split; [apply save_bet_bets|].
    exists (Markets (db (exec (save_bet stn now req_body) d).2)), [].
    rewrite app_nil_r. pose proof (save_bet_markets stn now req_body d) as Hs.
    repeat split; [done|done|].
    unfold text_identities. by rewrite (same_market_id_text _ _ Hs).
  - rewrite next_market_id_db. split; [done|].
    exists (Markets d), []. rewrite app_nil_r.
    eauto using Forall2_same_market_refl.
Qed.

Lemma steps_shape stn calls : ∀ d,
  Bets d `prefix_of` Bets (foldl (step stn) d calls) ∧
  ∃ kept added,
    Markets (foldl (step stn) d calls) = kept ++ added ∧
    Forall2 same_market (Markets d) kept ∧
    Forall (λ r, Market.IsVerified r.2 = SInt 0) added ∧
    (NoDup (text_identities d) → NoDup (text_identities (foldl (step stn) d calls))).
Proof.
  induction calls as [|c calls IH]; intros d; cbn [foldl].
  - split; [done|]. exists (Markets d), []. rewrite app_nil_r.
    eauto using Forall2_same_market_refl.
  - destruct (step_shape stn d c) as (Hb1 & kept1 & added1 & Hm1 & Hs1 & Hv1 & Hn1).
    destruct (IH (step stn d c)) as (Hb2 & kept2 & added2 & Hm2 & Hs2 & Hv2 & Hn2).
    split; [by etrans|].
    rewrite Hm1 in Hs2. apply Forall2_app_inv_l in Hs2 as (k2a & k2b & Ha & Hb & ->).
    exists k2a, (k2b ++ added2). rewrite Hm2, <- app_assoc.
    split; [done|]. split; [by eapply Forall2_same_market_trans|].
    split; [|by auto].
    apply Forall_app. split; [by eapply same_market_unverified|done].
Qed.

(** X16: no request ever removes or rewrites a stored bet: through every
    sequence of save-market, save-bet and next-market-id calls, the bets
    stored at the start remain, unchanged and in order, at the head of the
    table. *)
Theorem bets_are_only_appended (StringToNumber : jsstring → number)
    (calls : list call) (d : Db) :
  Bets d `prefix_of` Bets (foldl (step StringToNumber) d calls).
Proof. apply steps_shape. Qed.

(** X17: through every sequence of calls each stored market keeps its place
    in the table, its rowid and every column but [totalAmount] -- identity,
    title, description, expiration, creator and both flags; and every market
    added on the way is unverified. *)
Theorem markets_keep_all_but_total (StringToNumber : jsstring → number)
    (calls : list call) (d : Db) :
  ∃ kept added,
    Markets (foldl (step StringToNumber) d calls) = kept ++ added ∧
    Forall2 same_market (Markets d) kept ∧
    Forall (λ r, Market.IsVerified r.2 = SInt 0) added.
Proof.
  destruct (steps_shape StringToNumber calls d) as (_ & kept & added & ? & ? & ? & _).
  eauto.
Qed.

(** X18: starting from the empty database, no sequence of calls ever yields
    a verified market; so a reconciliation on a non-empty relation never
    reports [NoPendingRecord]. *)
Theorem no_market_is_ever_verified (StringToNumber : jsstring → number)
    (calls : list call) (l : list ChainQ.t) :
  Forall (λ r, Market.IsVerified r.2 = SInt 0)
         (Markets (foldl (step StringToNumber) empty_db calls)) ∧
  (Markets (foldl (step StringToNumber) empty_db calls) ≠ [] →
   (exec (update (Some l)) (foldl (step StringToNumber) empty_db calls)).1
   ≠ inr NoPendingRecord).
Proof.
  destruct (steps_shape StringToNumber calls empty_db)
    as (_ & kept & added & Hm & Hs & Hv & _).
  cbn in Hs. apply Forall2_nil_inv_l in Hs as ->. cbn in Hm.
  rewrite Hm. split; [done|]. intros Hne.
  rewrite exec_update_eq, update_eq. unfold select_first_unverified.
  destruct (first_unverified _) as [[k r]|] eqn:Hf.
  - cbn [fmap option_fmap option_map]. cbv zeta.
    repeat case_match; cbn; discriminate.
  - rewrite first_unverified_None in Hf. rewrite Hm in Hf.
    destruct added as [|[k r] added]; [done|].
    inversion Hv as [|?? Hr _]; subst. cbn in Hr.
    specialize (Hf k r (list_elem_of_here _ _)). by rewrite Hr in Hf.
Qed.

(** X19: the identities stay distinct: if no two stored markets have the
    same identity text, then after every sequence of calls no two have. *)
Theorem identities_stay_distinct (StringToNumber : jsstring → number)
    (calls : list call) (d : Db) :
  NoDup (text_identities d) →
  NoDup (text_identities (foldl (step StringToNumber) d calls)).
Proof.
  by destruct (steps_shape StringToNumber calls d) as (_ & ? & ? & _ & _ & _ & H).
Qed.

Lemma identities_stay_distinct_witness :
  NoDup (text_identities
           (foldl (step (λ _, NaN)) empty_db
              [CallSaveMarket (market_body (lit "5") (lit "T") (lit "2026-12-31") (lit "0xabc"));
               CallSaveMarket (market_body (lit "5") (lit "U") (lit "2026-12-31") (lit "0xabc"));
               CallSaveBet 1700000000000
                 (bet_body (lit "u") (lit "5") 3 (lit "yes") (lit "2026-11-02"));
               CallNextMarketId (Some [on_chain "7" "Will it hail?"]);
               CallSaveMarket (market_body (lit "6") (lit "U") (lit "2026-12-31") (lit "0xabc"))])).
Proof.
  apply (identities_stay_distinct (λ _, NaN)). apply NoDup_nil_2.
Defined.

(** ** Reading bets and markets back *)

Lemma filter_app_single {A} (p : A → bool) (l : list A) (x : A) :
  List.filter p (l ++ [x]) = List.filter p l ++ (if p x then [x] else []).
Proof.
  induction l as [|y l IH]; cbn; [done|]. rewrite IH. by destruct (p y).
Qed.

(** X20: a stored bet can be read back: after a successful save-bet, the
    user-bets endpoint returns for that user what it returned before,
    followed by the new bet with the fields of the request; for every other
    user it returns what it returned before. *)
Theorem user_bets_after_save_bet (StringToNumber : jsstring → number)
    (now : Z) (u m : jsstring) (a : Z) (o dt : jsstring) (d : Db) (u' : jsstring) :
  u ≠ [] → m ≠ [] → 0 < a → o ≠ [] → dt ≠ [] →
  bet_stored (decimal now) d = false →
  select_bets_of_user u' (db (exec (save_bet StringToNumber now (bet_body u m a o dt)) d).2)
  = select_bets_of_user u' d
    ++ (if bool_decide (u' = u) then [bet_star (bet_row now u m a o dt)] else []).
Proof.
  intros Hu Hm Ha Ho Hdt Hfresh.
  destruct (bool_decide_nonempty_fields u m a o dt) as [H1 H2]; try done.
  rewrite save_bet_typed, H1, H2, Hfresh. cbn [snd db].
  unfold select_bets_of_user. cbn [Bets]. rewrite filter_app_single, fmap_app.
  f_equal. cbn [snd bet_row Bet.userId]. rewrite text_eq_SText.
  destruct (decide (u' = u)) as [->|Hne].
  - by rewrite !bool_decide_eq_true_2.
  - rewrite !bool_decide_eq_false_2; [done| |]; congruence.
Qed.

Lemma user_bets_after_save_bet_witness :
  select_bets_of_user (lit "u")
    (db (exec (save_bet (λ _, NaN) 1700000000000
                 (bet_body (lit "u") (lit "5") 3 (lit "yes") (lit "2026-11-02")))
              (MkDb [(1, pending "5" "T")] [])).2)
  = select_bets_of_user (lit "u") (MkDb [(1, pending "5" "T")] [])
    ++ (if bool_decide (lit "u" = lit "u")
        then [bet_star (bet_row 1700000000000 (lit "u") (lit "5") 3 (lit "yes")
                                (lit "2026-11-02"))]
        else []).
Proof.
  apply (user_bets_after_save_bet (λ _, NaN) 1700000000000
           (lit "u") (lit "5") 3 (lit "yes") (lit "2026-11-02")
           (MkDb [(1, pending "5" "T")] []) (lit "u"));
    try discriminate; try lia; reflexivity.
Defined.










Lemma stake_other m a (l : list (Z * Market.t)) :
  (∀ r, r ∈ l → Market.id r.2 ≠ SText m) →
  ∀ r, r ∈ stake m a <$> l → text_eq (Market.id r.2) (SText m) = false.
Proof.
  intros Hl r Hr. apply list_elem_of_fmap in Hr as (r0 & -> & Hr0).
  unfold stake. rewrite bool_decide_eq_false_2 by (by apply Hl).
  rewrite text_eq_SText. apply bool_decide_eq_false_2. by apply Hl.
Qed.

(** X23: a market and a bet can be read back together.  Save a market under
    an id that no market and no bet uses, then save a bet of amount [a] on
    it: the market endpoint then answers 200 with the saved title,
    expiration and creator, the market unverified, its one bet, and both
    [totalAmount] and [totalBetAmount] equal to [a]. *)
Theorem market_and_bet_round_trip (StringToNumber : jsstring → number)
    (now : Z) (i t e c u : jsstring) (a : Z) (o dt : jsstring) (d : Db) :
  i ≠ [] → t ≠ [] → e ≠ [] → c ≠ [] → u ≠ [] → 0 < a → o ≠ [] → dt ≠ [] →
  i ∉ text_identities d →
  bets_of_market i d = [] →
  bet_stored (decimal now) d = false →
  ∃ r, market i (db (exec (save_bet StringToNumber now (bet_body u i a o dt))
                          (save_market (market_body i t e c) d).2).2) = Some r
       ∧ code r = 200
       ∧ payload_field r "id" = Some (JVal (Str i))
       ∧ payload_field r "title" = Some (JVal (Str t))
       ∧ payload_field r "expiration" = Some (JVal (Str e))
       ∧ payload_field r "creator" = Some (JVal (Str c))
       ∧ payload_field r "IsVerified" = Some (JVal (Number (Num 0)))
       ∧ payload_field r "totalAmount" = Some (JVal (Number (Num a)))
       ∧ payload_field r "totalBetAmount" = Some (JVal (Number (Num a)))
       ∧ payload_field r "bets"
         = Some (rows [ {[ "userId" := Str u; "amount" := Number (Num a);
                           "outcome" := Str o; "date" := Str dt ]} ]).
Proof.
  intros Hi Ht He Hc Hu Ha Ho Hdt Hfresh Hnobets Hnobet.
  destruct (bool_decide_nonempty_fields u i a o dt) as [H1 H2]; try done.
  rewrite save_market_typed.
  rewrite bool_decide_eq_false_2 by (intros [?|[?|[?|?]]]; done).
  rewrite bool_decide_eq_false_2 by done. cbn [snd].
  rewrite save_bet_typed, H1, H2.
  replace (bet_stored (decimal now) _) with false by (by rewrite <- Hnobet).
  cbn [snd db]. unfold market, select_market. cbn [Markets].
  rewrite fmap_app. cbn [fmap list_fmap].
  rewrite (find_first _ _ (stake i a (next_rowid (Markets d), market_row i t e c))).
  2:{ apply stake_other. intros r Hr Hid. apply Hfresh, elem_of_text_identities. eauto. }
  2:{ unfold stake. cbn. rewrite bool_decide_eq_true_2 by done. cbn.
      by rewrite bool_decide_eq_true_2. }
  cbn [fmap option_fmap option_map].
  unfold select_bets_of_market. cbn [Bets]. rewrite filter_app_single.
  fold (bets_of_market i d). rewrite Hnobets. cbn [app snd bet_row Bet.marketId].
  rewrite text_eq_SText, bool_decide_eq_true_2 by done.
  unfold stake. cbn [snd market_row Market.id]. rewrite bool_decide_eq_true_2 by done.
  eexists. split; [reflexivity|]. repeat split.
Qed.

Lemma market_and_bet_round_trip_witness :
  ∃ r, market (lit "5")
         (db (exec (save_bet (λ _, NaN) 1700000000000
                      (bet_body (lit "u") (lit "5") 3 (lit "yes") (lit "2026-11-02")))
                   (save_market (market_body (lit "5") (lit "T") (lit "2026-12-31") (lit "0xabc"))
                                empty_db).2).2) = Some r
       ∧ code r = 200
       ∧ payload_field r "id" = Some (JVal (Str (lit "5")))
       ∧ payload_field r "title" = Some (JVal (Str (lit "T")))
       ∧ payload_field r "expiration" = Some (JVal (Str (lit "2026-12-31")))
       ∧ payload_field r "creator" = Some (JVal (Str (lit "0xabc")))
       ∧ payload_field r "IsVerified" = Some (JVal (Number (Num 0)))
       ∧ payload_field r "totalAmount" = Some (JVal (Number (Num 3)))
       ∧ payload_field r "totalBetAmount" = Some (JVal (Number (Num 3)))
       ∧ payload_field r "bets"
         = Some (rows [ {[ "userId" := Str (lit "u"); "amount" := Number (Num 3);
                           "outcome" := Str (lit "yes"); "date" := Str (lit "2026-11-02") ]} ]).
Proof.
  apply (market_and_bet_round_trip (λ _, NaN) 1700000000000
           (lit "5") (lit "T") (lit "2026-12-31") (lit "0xabc") (lit "u") 3
           (lit "yes") (lit "2026-11-02") empty_db);
    try discriminate; try lia; try reflexivity.
  intros Hin. by apply elem_of_nil in Hin.
Defined.

(** X24: the markets endpoint lists one object per stored market, in table
    order; after a successful save-market it lists what it listed before,
    followed by the new market with the saved fields, total 0 and
    unverified. *)
Theorem markets_lists_saved_market (i t e c : jsstring) (d : Db) :
  i ≠ [] → t ≠ [] → e ≠ [] → c ≠ [] →
  i ∉ text_identities d →
  markets (save_market (market_body i t e c) d).2
  = Reply 200 (rows ((Market.select_star ∘ snd <$> Markets d)
                     ++ [Market.select_star (market_row i t e c)])).
Proof.
  intros Hi Ht He Hc Hfresh. rewrite save_market_typed.
  rewrite bool_decide_eq_false_2 by (intros [?|[?|[?|?]]]; done).
  rewrite bool_decide_eq_false_2 by done.
  unfold markets. cbn [snd Markets]. by rewrite fmap_app.
Qed.

Lemma markets_lists_saved_market_witness :
  markets (save_market (market_body (lit "6") (lit "U") (lit "2027-01-01") (lit "0xdef"))
                       (MkDb [(1, pending "5" "T")] [])).2
  = Reply 200 (rows ((Market.select_star ∘ snd <$> Markets (MkDb [(1, pending "5" "T")] []))
                     ++ [Market.select_star
                           (market_row (lit "6") (lit "U") (lit "2027-01-01") (lit "0xdef"))])).
Proof.
  apply (markets_lists_saved_market (lit "6") (lit "U") (lit "2027-01-01") (lit "0xdef")
           (MkDb [(1, pending "5" "T")] []));
    try discriminate.
  intros Hin. apply list_elem_of_singleton in Hin. discriminate.
Defined.

Lemma max_identity_bound m : ∀ x,
  max_identity m = Some x → ∀ r, r ∈ m → identity_as_integer r.2 <= x.
Proof.
  induction m as [|r0 m IH]; intros x Hx r Hr; [by apply elem_of_nil in Hr|].
  cbn in Hx. injection Hx as <-.
  apply elem_of_cons in Hr as [->|Hr].
  - destruct (max_identity m); lia.
  - destruct (max_identity m) as [y|] eqn:Hy.
    + specialize (IH y eq_refl r Hr). lia.
    + destruct m; [by apply elem_of_nil in Hr|done].
Qed.

Lemma decimal_inj n m : 0 <= n → 0 <= m → decimal n = decimal m → n = m.
Proof.
  intros Hn Hm Heq. pose proof (parseInt_numeral n Hn) as H1.
  rewrite Heq, (parseInt_numeral m Hm) in H1. by injection H1.
Qed.

Lemma spec_next_id_fresh d :
  (∀ k r, (k, r) ∈ Markets d → numeral_id r) →
  spec_next_id (Markets d) ∉ text_identities d.
Proof.
  intros Hnum Hin. apply elem_of_text_identities in Hin as ([k r] & Hr & Hid).
  destruct (Hnum k r Hr) as (n & Hn & Hidn). cbn in Hid.
  unfold spec_next_id in Hid. destruct (max_identity (Markets d)) as [x|] eqn:Hx.
  - pose proof (max_identity_bound _ x Hx (k, r) Hr) as Hle. cbn in Hle.
    unfold identity_as_integer in Hle. rewrite Hidn, cast_numeral in Hle by lia.
    cbn in Hle. unfold id in Hle. rewrite Hidn in Hid. injection Hid as Hid.
    apply decimal_inj in Hid; lia.
  - destruct (Markets d); [by apply elem_of_nil in Hr|done].
Qed.

(** X25: when every stored identity is the decimal numeral of a natural
    number below [2^53 - 1], the id that next-market-id hands out is not
    the identity of any stored market, so a save-market request under that
    id is accepted. *)
Theorem next_market_id_is_unused (chain : option (list ChainQ.t)) (d : Db)
    (o : outcome) (w : world) (t e c : jsstring) :
  exec (update chain) d = (inr o, w) →
  (∀ k r, (k, r) ∈ Markets d → numeral_id r) →
  t ≠ [] → e ≠ [] → c ≠ [] →
  ∃ next, (exec (next_market_id chain) d).1
            = inr (Response 200 {[ "nextId" := Str next ]})
          ∧ (next ∉ text_identities d)
          ∧ (save_market (market_body next t e c) d).1
            = success_reply "Market saved successfully".
Proof.
  intros Hu Hnum Ht He Hc.
  assert (Hdb : db w = d).
  { pose proof (update_db chain (World d [])) as H.
    rewrite <- exec_update_eq, Hu in H. done. }
  exists (spec_next_id (Markets d)).
  rewrite next_market_id_eq, Hu. cbn [fst]. unfold select_max_id.
  rewrite Hdb, top_row_numerals by done.
  pose proof (spec_next_id_fresh d Hnum) as Hfresh.
  split; [done|]. split; [done|].
  rewrite save_market_typed.
  rewrite bool_decide_eq_false_2.
  - by rewrite bool_decide_eq_false_2.
  - intros [Hempty|[?|[?|?]]]; try done.
    unfold spec_next_id in Hempty. destruct (max_identity _) as [x|]; [|done].
    unfold decimal in Hempty. destruct (x + 1 <? 0); [done|].
    unfold digits in Hempty. by destruct (Z.to_nat _); cbn in Hempty;
      [|destruct (_ <? 10); [|destruct (digits_fuel _ _)]].
Qed.

Lemma next_market_id_is_unused_witness :
  ∃ next, (exec (next_market_id (Some [on_chain "7" "Will it hail?"]))
                (MkDb [(1, verified "3" "A"); (2, pending "12" "B")] [])).1
            = inr (Response 200 {[ "nextId" := Str next ]})
          ∧ (next ∉ text_identities (MkDb [(1, verified "3" "A"); (2, pending "12" "B")] []))
          ∧ (save_market (market_body next (lit "T") (lit "2027-01-01") (lit "0xabc"))
                         (MkDb [(1, verified "3" "A"); (2, pending "12" "B")] [])).1
            = success_reply "Market saved successfully".
Proof.
  apply (next_market_id_is_unused (Some [on_chain "7" "Will it hail?"])
           (MkDb [(1, verified "3" "A"); (2, pending "12" "B")] [])
           (Unmatched (lit "8") true)
           (World (MkDb [(1, verified "3" "A"); (2, pending "12" "B")] [])
                  [ContractList; DbGet SelectFirstUnverified;
                   DbRun UpdateId [Str (lit "8"); Undefined]]));
    try discriminate.
  - vm_compute. reflexivity.
  - intros k r Hin.
    repeat (apply elem_of_cons in Hin as [Hin|Hin]; [injection Hin as -> ->|]).
    + exists 3. split; [lia|reflexivity].
    + exists 12. split; [lia|reflexivity].
    + by apply elem_of_nil in Hin.
Defined.
